(** * Temoa MGA sequencer: a shallow embedding of
      [temoa/extensions/modeling_to_generate_alternatives/mga_sequencer.py]

    The class [MgaSequencer] is embedded as a record for the object, a
    constructor in explicit state-passing style and the method [start] in a
    small monad whose state is the world seen by the orchestrator process:
    the object itself, the three multiprocessing queues, the worker
    processes and the trace of side effects.  A call can return, raise,
    never return (a blocking queue or join call) or exhaust the bound used
    to unroll the [while] loop. *)

From Stdlib Require Import Bool ZArith List String Floats Lia.
Import ListNotations.

#[local] Set Warnings "-inexact-float".
#[local] Open Scope string_scope.
#[local] Open Scope list_scope.

(** ** Data of the collaborators *)

(** [mga_constants.MgaAxis] and [MgaWeighting]: the source names one member
    of each (the default); every other member is carried by its name. *)
Inductive MgaAxis := TECH_CATEGORY_ACTIVITY | OtherAxis (name : string).
Inductive MgaWeighting := HULL_EXPANSION | OtherWeighting (name : string).

(** [config.mga_inputs], a dict read with [.get]: one optional entry per key
    that the sequencer reads. *)
Record MgaInputs := {
  mi_axis : option MgaAxis;
  mi_weighting : option MgaWeighting;
  mi_iteration_limit : option Z;
  mi_time_limit_hrs : option Z;
  mi_cost_epsilon : option float
}.

Record TemoaConfig := {
  input_database : string;
  output_database : string;
  source_trace : bool;
  save_lp_file : bool;
  save_duals : bool;
  save_excel : bool;
  solver_name : string;
  mga_inputs : MgaInputs;
  scenario : string;
  silent : bool
}.

Definition SolverOptions := list (string * Z).

(** The handle stored in [self.opt]. *)
Inductive Solver :=
| Highs
| SolverFactory (name : string) (gurobi_options : option SolverOptions).

Inductive TerminationCondition := optimal | infeasible | unbounded | otherCondition (name : string).

Inductive exn :=
| NotImplementedError (msg : string)
| AttributeError (attr : string)
| StopIteration
| QueueFull
| QueueEmpty
| ValueError
| TypeError.

Inductive LogLevel := DEBUG | INFO | WARNING.
Inductive QueueName := WorkQ | ResultQ | LogQ.

(** What is outside this file: pyomo expressions and model data, the solver,
    the loader, the cost rule and the vector manager (an abstract base class
    whose generator shares the manager's state). *)
Class External := {
  Expr : Type;
  ModelData : Type;
  VM : Type
}.

Section Model.
Context {X : External}.

(** [pyo.Constraint(expr = body <= upper)] *)
Record Constraint := { body : Expr; upper : float }.

(** A [TemoaModel] instance: the two components the sequencer touches by
    name, and the rest of the model (variables and their loaded values). *)
Record TemoaModel := {
  data : ModelData;
  TotalCost : option Expr;
  cost_cap : option Constraint
}.

(** A value yielded by [vector_manager.instance_generator]: the string
    ['waiting'] or a model. *)
Inductive candidate := Waiting | Instance (m : TemoaModel).

Inductive event :=
| EConnect (db : string)
| ELog (lvl : LogLevel) (msg : string)
| ELogStatus (status : TerminationCondition)
| EPrint (msg : string)
| EPrintCount (c : Z)
| EPrintAlive (h : nat) (alive : bool)
| EWriterInit
| EClearIndexedScenarios
| ELoadDataPortal
| EBuildInstance
| ESolve (m : TemoaModel)
| EWriteResults (m : TemoaModel)
| EAddConstraint (name : string) (c : Constraint)
| EDelComponent (name : string)
| EGetManager (optimal_cost cost_relaxation : float)
| ENewQueue (q : QueueName) (maxsize : nat)
| EWorkerNew (h : nat)
| EWorkerStart (h : nat)
| ENext (c : candidate)
| EPut (item : option TemoaModel)
| EGet (item : option TemoaModel)
| EProcessResults (m : TemoaModel)
| EWriteCapacityTables (m : TemoaModel) (iteration : Z)
| EJoin (h : nat)
| EClose (q : QueueName)
| EFinalizeTracker
| ECloseConnection (db : string).

(** ** The object *)

(** [opt], [std_opt] and [options] are assigned in some branches of the
    constructor only: [None] is an attribute that was never set. *)
Record MgaSequencer := {
  con : string;
  config : TemoaConfig;
  opt : option Solver;
  std_opt : option Solver;
  options : option SolverOptions;
  internal_stop : bool;
  mga_axis : MgaAxis;
  mga_weighting : MgaWeighting;
  iteration_limit : Z;
  time_limit_hrs : Z;
  cost_epsilon : float;
  solve_records : list (Expr * list float);
  solve_count : Z;
  orig_label : string
}.

Definition set_solve_count (c : Z) (s : MgaSequencer) : MgaSequencer :=
  {| con := con s; config := config s; opt := opt s; std_opt := std_opt s;
     options := options s; internal_stop := internal_stop s;
     mga_axis := mga_axis s; mga_weighting := mga_weighting s;
     iteration_limit := iteration_limit s; time_limit_hrs := time_limit_hrs s;
     cost_epsilon := cost_epsilon s; solve_records := solve_records s;
     solve_count := c; orig_label := orig_label s |}.

Definition set_internal_stop (b : bool) (s : MgaSequencer) : MgaSequencer :=
  {| con := con s; config := config s; opt := opt s; std_opt := std_opt s;
     options := options s; internal_stop := b;
     mga_axis := mga_axis s; mga_weighting := mga_weighting s;
     iteration_limit := iteration_limit s; time_limit_hrs := time_limit_hrs s;
     cost_epsilon := cost_epsilon s; solve_records := solve_records s;
     solve_count := solve_count s; orig_label := orig_label s |}.




(** ** The constructor, [MgaSequencer.__init__]

    Explicit state passing over the trace of side effects; the result is the
    exception raised or the constructed object. *)

Definition get_or {A} (o : option A) (default : A) : A :=
  match o with Some a => a | None => default end.

Definition gurobi_options_dict : SolverOptions :=
  [("Threads", 4%Z); ("TimeLimit", (3600 * 2)%Z)].

Definition disable_flag (flag : bool) (msg : string) (tr : list event) : list event :=
  if flag then tr ++ [ELog INFO msg] else tr.

Definition init (cfg : TemoaConfig) (tr : list event)
  : (exn + MgaSequencer) * list event :=
  if negb (input_database cfg =? output_database cfg) then
    (inl (NotImplementedError "MGA assumes input and output databases are same"), tr)
  else
    let tr := tr ++ [EConnect (input_database cfg)] in
    let tr := if negb (source_trace cfg)
              then tr ++ [ELog WARNING "Performing MGA runs without source trace."]
              else tr in
    let tr := disable_flag (save_lp_file cfg) "Saving LP file is disabled during MGA runs." tr in
    let tr := disable_flag (save_duals cfg) "Saving duals is disabled during MGA runs." tr in
    let tr := disable_flag (save_excel cfg) "Saving excel is disabled during MGA runs." tr in
    let cfg := {| input_database := input_database cfg;
                  output_database := output_database cfg;
                  source_trace := source_trace cfg;
                  save_lp_file := false; save_duals := false; save_excel := false;
                  solver_name := solver_name cfg; mga_inputs := mga_inputs cfg;
                  scenario := scenario cfg; silent := silent cfg |} in
    let '(o, so, os) :=
      if solver_name cfg =? "appsi_highs" then
        (Some Highs, Some (SolverFactory "appsi_highs" None), None)
      else if solver_name cfg =? "gurobi" then
        (Some (SolverFactory "gurobi" (Some gurobi_options_dict)), None,
         Some gurobi_options_dict)
      else if solver_name cfg =? "cbc" then
        (Some (SolverFactory "cbc" None), None, Some [])
      else (None, None, None) in
    let '(ax, tr) :=
      match mi_axis (mga_inputs cfg) with
      | Some a => (a, tr)
      | None => (TECH_CATEGORY_ACTIVITY,
                 tr ++ [ELog WARNING "No MGA Axis specified.  Using default:  Activity by Tech Category"])
      end in
    let '(wt, tr) :=
      match mi_weighting (mga_inputs cfg) with
      | Some a => (a, tr)
      | None => (HULL_EXPANSION,
                 tr ++ [ELog WARNING "No MGA Weighting specified.  Using default: Hull Expansion"])
      end in
    let tr := tr ++ [EWriterInit; EClearIndexedScenarios] in
    let tr := tr ++ [ELog INFO "Initialized MGA sequencer with MGA Axis %s and weighting %s"] in
    (inr {| con := input_database cfg; config := cfg;
            opt := o; std_opt := so; options := os;
            internal_stop := false;
            mga_axis := ax; mga_weighting := wt;
            iteration_limit := get_or (mi_iteration_limit (mga_inputs cfg)) 20%Z;
            time_limit_hrs := get_or (mi_time_limit_hrs (mga_inputs cfg)) 12%Z;
            cost_epsilon := get_or (mi_cost_epsilon (mga_inputs cfg)) 0.05%float;
            solve_records := []; solve_count := 0%Z;
            orig_label := scenario cfg |}, tr).

End Model.

(** ** The world of the orchestrator process *)

(** What the worker processes (and time) can change behind the
    orchestrator's back: the contents of the work and result queues, the
    liveness of each process and the wall clock. *)
Record Ext {X : External} := {
  wq : list (option TemoaModel);
  rq : list (option TemoaModel);
  alive : list bool;
  now : Z
}.

(** The collaborators' operations.  [pyo_value] is [pyo.value] on an
    expression, [None] when the expression has no value to give (the call
    raises [ValueError], as on variables that no solve has set).
    [instance_generator_next] is [next] on
    the generator returned by [vector_manager.instance_generator(config)]
    ([None] when the generator is exhausted); [env t] is everything the
    worker processes do while the orchestrator waits in its [t]-th blocking
    or queue call. *)
Class Collaborators {X : External} := {
  build_instance : TemoaConfig -> TemoaModel;
  opt_solve : Solver -> TemoaModel -> ModelData * TerminationCondition;
  pyo_value : Expr -> ModelData -> option float;
  TotalCost_rule : TemoaModel -> Expr;
  get_manager : MgaAxis -> TemoaModel -> MgaWeighting -> string -> float -> float -> VM;
  stop_resolving : VM -> bool;
  process_results : TemoaModel -> VM -> VM;
  instance_generator_next : TemoaConfig -> VM -> option (candidate * VM);
  env : nat -> Ext -> Ext
}.

Section Sequencer.
Context {X : External} {C : Collaborators}.

Record World := {
  self : MgaSequencer;
  ext : Ext;
  work_max : nat;
  result_max : nat;
  closed : list QueueName;
  ticks : nat;
  trace : list event
}.

Definition with_self (f : MgaSequencer -> MgaSequencer) (w : World) : World :=
  {| self := f (self w); ext := ext w; work_max := work_max w;
     result_max := result_max w; closed := closed w; ticks := ticks w;
     trace := trace w |}.

Definition with_ext (f : Ext -> Ext) (w : World) : World :=
  {| self := self w; ext := f (ext w); work_max := work_max w;
     result_max := result_max w; closed := closed w; ticks := ticks w;
     trace := trace w |}.

Definition with_trace (f : list event -> list event) (w : World) : World :=
  {| self := self w; ext := ext w; work_max := work_max w;
     result_max := result_max w; closed := closed w; ticks := ticks w;
     trace := f (trace w) |}.

Definition set_wq (l : list (option TemoaModel)) (e : Ext) : Ext :=
  {| wq := l; rq := rq e; alive := alive e; now := now e |}.
Definition set_rq (l : list (option TemoaModel)) (e : Ext) : Ext :=
  {| wq := wq e; rq := l; alive := alive e; now := now e |}.
Definition set_alive (l : list bool) (e : Ext) : Ext :=
  {| wq := wq e; rq := rq e; alive := l; now := now e |}.
Definition set_now (t : Z) (e : Ext) : Ext :=
  {| wq := wq e; rq := rq e; alive := alive e; now := t |}.

(** ** The monad *)

Inductive outcome (A : Type) :=
| Ret (a : A) (w : World)
| Raise (e : exn) (w : World)
| Blocked (w : World)
| OutOfFuel (w : World).
Arguments Ret {A}.
Arguments Raise {A}.
Arguments Blocked {A}.
Arguments OutOfFuel {A}.

Definition M (A : Type) := World -> outcome A.

Definition ret {A} (a : A) : M A := fun w => Ret a w.
Definition raise {A} (e : exn) : M A := fun w => Raise e w.

Definition bind {A B} (m : M A) (k : A -> M B) : M B :=
  fun w => match m w with
           | Ret a w' => k a w'
           | Raise e w' => Raise e w'
           | Blocked w' => Blocked w'
           | OutOfFuel w' => OutOfFuel w'
           end.

(** [try: m  except ...: h]; the handler picks the exceptions it catches. *)
Definition try_except {A} (m : M A) (h : exn -> option (M A)) : M A :=
  fun w => match m w with
           | Raise e w' => match h e with Some k => k w' | None => Raise e w' end
           | o => o
           end.


(** The world an outcome ends in. *)
Definition final {A} (o : outcome A) : World :=
  match o with Ret _ w | Raise _ w | Blocked w | OutOfFuel w => w end.

Definition returned {A} (o : outcome A) : bool :=
  match o with Ret _ _ => true | _ => false end.

End Sequencer.

Arguments Ret {X A}.
Arguments Raise {X A}.
Arguments Blocked {X A}.
Arguments OutOfFuel {X A}.

Declare Scope seq_scope.
Delimit Scope seq_scope with seq.
Notation "x <- m ;; k" := (bind m (fun x => k))
  (at level 61, m at next level, right associativity) : seq_scope.
Notation "' p <- m ;; k" := (bind m (fun x => match x with p => k end))
  (at level 61, p pattern, m at next level, right associativity) : seq_scope.
Notation "m ;; k" := (bind m (fun _ => k))
  (at level 61, right associativity) : seq_scope.
#[local] Open Scope seq_scope.

Section Start.
Context {X : External} {C : Collaborators}.

(** *** Primitive effects *)

Definition emit (e : event) : M unit :=
  fun w => Ret tt (with_trace (fun tr => tr ++ [e]) w).
Definition get_self : M MgaSequencer := fun w => Ret (self w) w.
Definition modify_self (f : MgaSequencer -> MgaSequencer) : M unit :=
  fun w => Ret tt (with_self f w).

(** Time passes and the workers run. *)
Definition tick : M unit :=
  fun w => Ret tt
    {| self := self w; ext := env (ticks w) (ext w); work_max := work_max w;
       result_max := result_max w; closed := closed w; ticks := S (ticks w);
       trace := trace w |}.

Definition datetime_now : M Z := fun w => Ret (now (ext w)) w.

Definition logger (lvl : LogLevel) (msg : string) : M unit := emit (ELog lvl msg).
Definition print (msg : string) : M unit := emit (EPrint msg).

(** Reading [self.opt] and [self.options]. *)
Definition self_opt : M Solver :=
  s <- get_self ;;
  match opt s with Some o => ret o | None => raise (AttributeError "opt") end.
Definition self_options : M SolverOptions :=
  s <- get_self ;;
  match options s with Some o => ret o | None => raise (AttributeError "options") end.

(** [multiprocessing.Queue(maxsize)] *)
Definition new_queue (q : QueueName) (maxsize : nat) : M unit :=
  emit (ENewQueue q maxsize) ;;
  fun w =>
    match q with
    | WorkQ => Ret tt {| self := self w; ext := set_wq [] (ext w); work_max := maxsize;
                         result_max := result_max w; closed := closed w;
                         ticks := ticks w; trace := trace w |}
    | ResultQ => Ret tt {| self := self w; ext := set_rq [] (ext w); work_max := work_max w;
                           result_max := maxsize; closed := closed w;
                           ticks := ticks w; trace := trace w |}
    | LogQ => Ret tt w
    end.

(** [work_queue.put(item, block)] with no timeout: on a full queue it raises
    [queue.Full] when [block] is false and waits for a free slot otherwise. *)
Definition work_queue_put (item : option TemoaModel) (block : bool) : M unit :=
  tick ;;
  fun w =>
    if (List.length (wq (ext w)) <? work_max w)%nat then
      Ret tt (with_trace (fun tr => tr ++ [EPut item])
               (with_ext (fun e => set_wq (wq e ++ [item]) e) w))
    else if block then Blocked w else Raise QueueFull w.

(** [result_queue.get(block)] with no timeout: on an empty queue it raises
    [queue.Empty] when [block] is false and waits for an item otherwise. *)
Definition result_queue_get (block : bool) : M (option TemoaModel) :=
  tick ;;
  fun w =>
    match rq (ext w) with
    | r :: rest =>
        Ret r (with_trace (fun tr => tr ++ [EGet r]) (with_ext (set_rq rest) w))
    | [] => if block then Blocked w else Raise QueueEmpty w
    end.

Definition queue_close (q : QueueName) : M unit :=
  emit (EClose q) ;;
  fun w => Ret tt {| self := self w; ext := ext w; work_max := work_max w;
                     result_max := result_max w; closed := q :: closed w;
                     ticks := ticks w; trace := trace w |}.

(** [Worker(...)], [w.start()], [w.is_alive()], [w.join()]: a worker is
    named by its index in the list of processes. *)
Definition Worker_new : M nat :=
  fun w => let h := List.length (alive (ext w)) in
           Ret h (with_trace (fun tr => tr ++ [EWorkerNew h])
                   (with_ext (fun e => set_alive (alive e ++ [false]) e) w)).

Fixpoint set_nth (i : nat) (b : bool) (l : list bool) : list bool :=
  match l, i with
  | [], _ => []
  | _ :: l', O => b :: l'
  | x :: l', S i' => x :: set_nth i' b l'
  end.

Definition Worker_start (h : nat) : M unit :=
  fun w => Ret tt (with_trace (fun tr => tr ++ [EWorkerStart h])
                    (with_ext (fun e => set_alive (set_nth h true (alive e)) e) w)).

Definition is_alive (h : nat) : M bool :=
  fun w => Ret (nth h (alive (ext w)) false) w.

Definition join (h : nat) : M unit :=
  tick ;;
  fun w => if nth h (alive (ext w)) false then Blocked w
           else Ret tt (with_trace (fun tr => tr ++ [EJoin h]) w).

Fixpoint for_each {A} (l : list A) (f : A -> M unit) : M unit :=
  match l with
  | [] => ret tt
  | a :: l' => f a ;; for_each l' f
  end.

End Start.

Section StartMethod.
Context {X : External} {C : Collaborators}.

(** ** The method [MgaSequencer.start]

    The method is one block of code whose comments number its steps; each
    step is a definition here and [start] chains them. *)

(** [self.opt.solve(instance)]: the solver runs, time passes, and the
    variable values are loaded into the instance. *)
Definition solved_instance (o : Solver) (instance : TemoaModel) : TemoaModel :=
  {| data := fst (opt_solve o instance); TotalCost := TotalCost instance;
     cost_cap := cost_cap instance |}.

(** What [solve] returns: the legacy results object of a [SolverFactory]
    solver, read as [res.solver] or [res['Solver']], or the results object
    of an appsi solver, which has the termination condition as an attribute
    of its own, no attribute [solver] and no subscript. *)
Inductive Results :=
| LegacyResults (termination_condition : TerminationCondition)
| AppsiResults (termination_condition : TerminationCondition).

Definition results_of (o : Solver) (status : TerminationCondition) : Results :=
  match o with
  | Highs => AppsiResults status
  | SolverFactory _ _ => LegacyResults status
  end.

Definition solve (o : Solver) (instance : TemoaModel) : M (TemoaModel * Results) :=
  emit (ESolve instance) ;;
  tick ;;
  ret (solved_instance o instance, results_of o (snd (opt_solve o instance))).

(** [res.solver.termination_condition] *)
Definition res_solver_termination_condition (res : Results) : M TerminationCondition :=
  match res with
  | LegacyResults status => ret status
  | AppsiResults _ => raise (AttributeError "solver")
  end.

(** [res['Solver'].termination_condition] *)
Definition res_Solver_termination_condition (res : Results) : M TerminationCondition :=
  match res with
  | LegacyResults status => ret status
  | AppsiResults _ => raise TypeError
  end.

(** [pyo.value(instance.TotalCost)] *)
Definition value_TotalCost (instance : TemoaModel) : M float :=
  match TotalCost instance with
  | Some e =>
      match pyo_value e (data instance) with
      | Some v => ret v
      | None => raise ValueError
      end
  | None => raise (AttributeError "TotalCost")
  end.

(** [instance.cost_cap = pyo.Constraint(expr=...)] *)
Definition set_cost_cap (c : Constraint) (instance : TemoaModel) : M TemoaModel :=
  emit (EAddConstraint "cost_cap" c) ;;
  ret {| data := data instance; TotalCost := TotalCost instance; cost_cap := Some c |}.

(** [instance.del_component(instance.TotalCost)] *)
Definition del_TotalCost (instance : TemoaModel) : M TemoaModel :=
  match TotalCost instance with
  | Some _ =>
      emit (EDelComponent "TotalCost") ;;
      ret {| data := data instance; TotalCost := None; cost_cap := cost_cap instance |}
  | None => raise (AttributeError "TotalCost")
  end.

(** [next(instance_generator)] *)
Definition next (vm : VM) : M (candidate * VM) :=
  s <- get_self ;;
  match instance_generator_next (config s) vm with
  | Some (c, vm') => emit (ENext c) ;; ret (c, vm')
  | None => raise StopIteration
  end.

(** [MgaSequencer.process_solve_results] *)
Definition process_solve_results (instance : TemoaModel) : M unit :=
  s <- get_self ;;
  emit (EWriteCapacityTables instance (solve_count s)).

(** Step 1, load data. *)
Definition load_data : M TemoaModel :=
  s <- get_self ;;
  emit ELoadDataPortal ;;
  emit EBuildInstance ;;
  ret (build_instance (config s)).

(** Step 2, base solve: the status is read as
    [res.solver.termination_condition] and logged, and the result is
    written; no branch looks at the status. *)
Definition base_solve (instance : TemoaModel) : M TemoaModel :=
  tic <- datetime_now ;;
  o <- self_opt ;;
  '(instance, res) <- solve o instance ;;
  toc <- datetime_now ;;
  modify_self (fun s => set_solve_count (solve_count s + 1)%Z s) ;;
  logger INFO "Initial solve time: " ;;
  status <- res_solver_termination_condition res ;;
  emit (ELogStatus status) ;;
  emit (EWriteResults instance) ;;
  ret instance.

(** Steps 3a and 3b: capture the cost, make it a constraint with the ceiling
    [(1 + self.cost_epsilon) * tot_cost] (binary64), remove the objective. *)
Definition relax_cost (instance : TemoaModel) : M (TemoaModel * float) :=
  s <- get_self ;;
  tot_cost <- value_TotalCost instance ;;
  logger INFO "Completed initial solve with total cost:  %0.2f" ;;
  logger INFO "Relaxing cost by fraction:  %0.3f" ;;
  let cost_expression := TotalCost_rule instance in
  instance <- set_cost_cap {| body := cost_expression;
                              upper := ((1 + cost_epsilon s) * tot_cost)%float |}
                           instance ;;
  instance <- del_TotalCost instance ;;
  ret (instance, tot_cost).

(** Step 4, instantiate the vector manager. *)
Definition instantiate_manager (instance : TemoaModel) (tot_cost : float) : M VM :=
  s <- get_self ;;
  emit (EGetManager tot_cost (cost_epsilon s)) ;;
  ret (get_manager (mga_axis s) instance (mga_weighting s) (con s) tot_cost
         (cost_epsilon s)).

(** [for i in range(num_workers)]: make a worker, start it, keep it. *)
Fixpoint make_workers (n : nat) (workers : list nat) : M (list nat) :=
  match n with
  | O => ret workers
  | S n' =>
      h <- Worker_new ;;
      Worker_start h ;;
      make_workers n' (workers ++ [h])
  end.

Definition num_workers : nat := 6.

(** Step 5, set up the workers: the queues, the keyword arguments (which
    read [self.options]), the pool. *)
Definition set_up_workers : M (list nat) :=
  new_queue WorkQ 5 ;;
  new_queue ResultQ 5 ;;
  new_queue LogQ 50 ;;
  solver_options <- self_options ;;
  make_workers num_workers [].

(** The first [try] of the loop body: submit the candidate if it is not the
    ['waiting'] sentinel and pull the next one. *)
Definition submit_work (vm : VM) (instance : candidate) : M (VM * candidate) :=
  try_except
    (match instance with
     | Instance m =>
         work_queue_put (Some m) false ;;
         '(c, vm') <- next vm ;;
         ret (vm', c)
     | Waiting => ret (vm, instance)
     end)
    (fun e => match e with
              | QueueFull => Some (print "work queue is full" ;; ret (vm, instance))
              | _ => None
              end).

(** The second [try] of the loop body: [result_queue.get()], with the
    default arguments [block=True, timeout=None]. *)
Definition poll_result : M (option TemoaModel) :=
  try_except (result_queue_get true)
    (fun e => match e with QueueEmpty => Some (ret None) | _ => None end).

(** The body of [if next_result is not None]. *)
Definition ingest_result (r : TemoaModel) (vm : VM) (instance : candidate)
  : M (VM * candidate) :=
  emit (EProcessResults r) ;;
  process_solve_results r ;;
  modify_self (fun s => set_solve_count (solve_count s + 1)%Z s) ;;
  s <- get_self ;;
  emit (EPrintCount (solve_count s)) ;;
  (if (iteration_limit s <=? solve_count s)%Z
   then modify_self (set_internal_stop true) else ret tt) ;;
  ret (process_results r vm, instance).

(** One pass through the body of the [while] loop of step 6.  The loop's
    variables are the vector manager and [instance]. *)
Definition round (vm : VM) (instance : candidate) : M (VM * candidate) :=
  logger INFO "Putting an instance in the work queue" ;;
  '(vm, instance) <- submit_work vm instance ;;
  next_result <- poll_result ;;
  match next_result with
  | Some r => ingest_result r vm instance
  | None => ret (vm, instance)
  end.

(** The loop condition, [not vector_manager.stop_resolving() and not
    self.internal_stop]. *)
Definition loop_condition (vm : VM) : M bool :=
  s <- get_self ;;
  ret (negb (stop_resolving vm) && negb (internal_stop s)).

(** The [while] loop, unrolled at most [fuel] times. *)
Fixpoint main_loop (fuel : nat) (vm : VM) (instance : candidate)
  : M (VM * candidate) :=
  continue <- loop_condition vm ;;
  if continue then
    match fuel with
    | O => fun w => OutOfFuel w
    | S fuel' =>
        '(vm, instance) <- round vm instance ;;
        main_loop fuel' vm instance
    end
  else ret (vm, instance).

(** Step 6, the iterative solve process. *)
Definition iterate (fuel : nat) (vector_manager : VM) : M (VM * candidate) :=
  '(instance, vector_manager) <- next vector_manager ;;
  main_loop fuel vector_manager instance.

(** Step 7, shut down the workers and then close the queues. *)
Definition shutdown (workers : list nat) : M unit :=
  print "shutting it down" ;;
  for_each workers (fun _ => work_queue_put None true) ;;
  for_each workers (fun h => a <- is_alive h ;; emit (EPrintAlive h a)) ;;
  for_each workers (fun h => join h ;; print "worker wrapped up...") ;;
  for_each workers (fun h => a <- is_alive h ;; emit (EPrintAlive h a)) ;;
  queue_close LogQ ;;
  print "log queue closed" ;;
  queue_close WorkQ ;;
  print "work queue joined" ;;
  queue_close ResultQ ;;
  print "result queue joined".

(** Steps 5 to 8: the pool, the loop, the shutdown and the wrap-up. *)
Definition run_pool (fuel : nat) (vector_manager : VM) : M unit :=
  workers <- set_up_workers ;;
  iterate fuel vector_manager ;;
  shutdown workers ;;
  emit EFinalizeTracker.

Definition start (fuel : nat) : M unit :=
  instance <- load_data ;;
  instance <- base_solve instance ;;
  '(instance, tot_cost) <- relax_cost instance ;;
  vector_manager <- instantiate_manager instance tot_cost ;;
  run_pool fuel vector_manager.

(** Constructing the sequencer and running it, from an initial world of no
    queue, no process and an empty trace. *)
Definition initial_world (s : MgaSequencer) (tr : list event) : World :=
  {| self := s;
     ext := {| wq := []; rq := []; alive := []; now := 0%Z |};
     work_max := 0; result_max := 0; closed := []; ticks := 0; trace := tr |}.

Inductive run_result :=
| ConstructorRaised (e : exn) (tr : list event)
| Started (o : outcome unit).

Definition run (cfg : TemoaConfig) (fuel : nat) : run_result :=
  match init cfg [] with
  | (inl e, tr) => ConstructorRaised e tr
  | (inr s, tr) => Started (start fuel (initial_world s tr))
  end.

End StartMethod.

(** ** Reading a trace *)

Section Traces.
Context {X : External} {C : Collaborators}.

Definition is_sentinel_put (e : event) : bool :=
  match e with EPut None => true | _ => false end.
Definition is_put (e : event) : bool :=
  match e with EPut _ => true | _ => false end.
Definition is_next (e : event) : bool :=
  match e with ENext _ => true | _ => false end.
Definition is_get (e : event) : bool :=
  match e with EGet _ => true | _ => false end.
Definition is_join (e : event) : bool :=
  match e with EJoin _ => true | _ => false end.
Definition is_close (e : event) : bool :=
  match e with EClose _ => true | _ => false end.
Definition is_solve (e : event) : bool :=
  match e with ESolve _ => true | _ => false end.
Definition is_worker_event (e : event) : bool :=
  match e with EWorkerNew _ | EWorkerStart _ => true | _ => false end.
Definition is_new_queue (e : event) : bool :=
  match e with ENewQueue _ _ => true | _ => false end.
Definition is_write_results (e : event) : bool :=
  match e with EWriteResults _ => true | _ => false end.
Definition is_model_edit (e : event) : bool :=
  match e with EAddConstraint _ _ | EDelComponent _ => true | _ => false end.
Definition is_ingestion (e : event) : bool :=
  match e with EProcessResults _ => true | _ => false end.
Definition is_recorded_iteration (e : event) : bool :=
  match e with EWriteCapacityTables _ _ => true | _ => false end.

(** The events of a round that are not the ingestion of a result. *)
Definition is_transfer (e : event) : bool :=
  match e with
  | ELog _ _ | EPrint _ | EPut _ | ENext _ | EGet _ => true
  | _ => false
  end.

(** The events of the ingestion of the result [r] when the counter is [c]. *)
Definition ingestion_events (r : TemoaModel) (c : Z) : list event :=
  [EProcessResults r; EWriteCapacityTables r c; EPrintCount (c + 1)].

(** The lines printed on the way. *)
Definition is_report (e : event) : bool :=
  match e with EPrint _ | EPrintAlive _ _ => true | _ => false end.

(** The events of the joins and of the closing of the queues in step 7. *)
Definition join_events (workers : list nat) : list event :=
  flat_map (fun h => [EJoin h; EPrint "worker wrapped up..."]) workers.

Definition close_events : list event :=
  [EClose LogQ; EPrint "log queue closed";
   EClose WorkQ; EPrint "work queue joined";
   EClose ResultQ; EPrint "result queue joined"].

(** The events of the constructor. *)
Definition is_constructor_event (e : event) : bool :=
  match e with
  | EConnect _ | ELog _ _ | EWriterInit | EClearIndexedScenarios => true
  | _ => false
  end.

(** The events of the steps after the cost relaxation: everything but the
    base solve and the edits of the working model. *)
Definition is_pool_event (e : event) : bool :=
  negb (is_model_edit e) && negb (is_solve e).

Definition count (P : event -> bool) (l : list event) : nat :=
  List.length (filter P l).

(** Once an event of [Q] has occurred, no event of [P] follows. *)
Fixpoint never_after (P Q : event -> bool) (l : list event) : bool :=
  match l with
  | [] => true
  | e :: l' => (if Q e then forallb (fun x => negb (P x)) l' else true)
               && never_after P Q l'
  end.

(** The iteration numbers under which results were recorded. *)
Fixpoint recorded_iterations (l : list event) : list Z :=
  match l with
  | [] => []
  | EWriteCapacityTables _ i :: l' => i :: recorded_iterations l'
  | _ :: l' => recorded_iterations l'
  end.

(** The events of steps 1 and 2, of steps 3 and 4, and of the creation of
    the queues, for an object [s] whose solver is the legacy handle [o] and
    a base instance whose objective has the value [tot_cost]. *)
Definition base_events (s : MgaSequencer) (o : Solver) : list event :=
  let instance := build_instance (config s) in
  [ELoadDataPortal; EBuildInstance; ESolve instance;
   ELog INFO "Initial solve time: ";
   ELogStatus (snd (opt_solve o instance));
   EWriteResults (solved_instance o instance)].

(** The events of a base solve whose results cannot be read as
    [res.solver]: the solve and the log line of its duration, and nothing
    after them. *)
Definition unread_solve_events (s : MgaSequencer) : list event :=
  [ELoadDataPortal; EBuildInstance; ESolve (build_instance (config s));
   ELog INFO "Initial solve time: "].

Definition cost_cap_of (s : MgaSequencer) (o : Solver) (tot_cost : float) : Constraint :=
  {| body := TotalCost_rule (solved_instance o (build_instance (config s)));
     upper := ((1 + cost_epsilon s) * tot_cost)%float |}.

Definition relax_events (s : MgaSequencer) (o : Solver) (tot_cost : float) : list event :=
  [ELog INFO "Completed initial solve with total cost:  %0.2f";
   ELog INFO "Relaxing cost by fraction:  %0.3f";
   EAddConstraint "cost_cap" (cost_cap_of s o tot_cost);
   EDelComponent "TotalCost";
   EGetManager tot_cost (cost_epsilon s)].

Definition queue_events : list event :=
  [ENewQueue WorkQ 5; ENewQueue ResultQ 5; ENewQueue LogQ 50].

(** The working model handed to the vector manager. *)
Definition relaxed_instance (s : MgaSequencer) (o : Solver) (tot_cost : float)
  : TemoaModel :=
  {| data := fst (opt_solve o (build_instance (config s)));
     TotalCost := None;
     cost_cap := Some (cost_cap_of s o tot_cost) |}.

(** The object after one more result has been counted. *)
Definition ingested_self (s : MgaSequencer) : MgaSequencer :=
  let s1 := set_solve_count (solve_count s + 1)%Z s in
  if (iteration_limit s <=? solve_count s + 1)%Z then set_internal_stop true s1 else s1.

(** The world in which a queue or join call is resolved: the workers have
    taken their turn. *)
Definition ticked (w : World) : World :=
  {| self := self w; ext := env (ticks w) (ext w); work_max := work_max w;
     result_max := result_max w; closed := closed w; ticks := S (ticks w);
     trace := trace w |}.

(** The world of a round once its first log line is out. *)
Definition logged (w : World) : World :=
  with_trace (fun tr => tr ++ [ELog INFO "Putting an instance in the work queue"]) w.

(** Whatever its outcome, [m] only appends events, all of them in [P]. *)
Definition appends {A} (P : event -> bool) (m : M A) : Prop :=
  forall w, exists evs,
    trace (final (m w)) = trace w ++ evs /\ forallb P evs = true.



(** A process that has terminated does not come back to life. *)
Definition no_revival : Prop :=
  forall t e h, nth h (alive (env t e)) false = true -> nth h (alive e) false = true.

End Traces.

(** ** Concrete collaborators for closed examples *)

Definition toy_types : External :=
  {| Expr := string; ModelData := nat; VM := nat * nat |}.

Section Toy.
#[local] Existing Instance toy_types.

Definition toy_model (id : nat) : TemoaModel :=
  {| data := id; TotalCost := None; cost_cap := None |}.

Definition base_model : TemoaModel :=
  {| data := 0; TotalCost := Some "TotalCost"; cost_cap := None |}.

(** Modelled from the spec: the pool of [Worker] processes (worker.py is
    not among the sources).  Following section 4.1, an item of the
    work queue that is a model is solved and sent on the result queue, and
    each sentinel makes one living worker terminate. *)
Fixpoint kill_one (l : list bool) : list bool :=
  match l with
  | [] => []
  | true :: l' => false :: l'
  | false :: l' => false :: kill_one l'
  end.

Fixpoint pool_serve (items : list (option TemoaModel)) (e : Ext) : Ext :=
  match items with
  | [] => e
  | Some m :: items' => pool_serve items' (set_rq (rq e ++ [Some m]) e)
  | None :: items' => pool_serve items' (set_alive (kill_one (alive e)) e)
  end.

Definition pool_env (dt : Z) (t : nat) (e : Ext) : Ext :=
  let e' := pool_serve (wq e) (set_wq [] e) in
  {| wq := wq e'; rq := rq e'; alive := alive e'; now := (now e' + dt)%Z |}.

(** The processes still running, and the sentinels waiting in a queue. *)
Definition alive_count (l : list bool) : nat := List.length (filter (fun b => b) l).

Definition sentinels (items : list (option TemoaModel)) : nat :=
  List.length (filter (fun i => match i with None => true | Some _ => false end) items).

(** Workers that never deliver anything. *)
Definition idle_env (t : nat) (e : Ext) : Ext := e.

(** A vector manager whose state counts the pulls and the processed
    results; it never declares exhaustion and yields a fresh model at every
    pull, except ['waiting'] at the pulls listed in [waits]. *)
Definition toy_next (waits : list nat) (cfg : TemoaConfig) (vm : nat * nat)
  : option (candidate * (nat * nat)) :=
  let '(pulls, seen) := vm in
  Some (if existsb (Nat.eqb pulls) waits then Waiting else Instance (toy_model (S pulls)),
        (S pulls, seen)).

Definition toy_collab (waits : list nat) (environment : nat -> Ext -> Ext)
  (objective : float) (status : TerminationCondition) : Collaborators :=
  {| build_instance := fun _ => base_model;
     opt_solve := fun _ m => (data m, status);
     pyo_value := fun _ _ => Some objective;
     TotalCost_rule := fun _ => "TotalCost_rule";
     get_manager := fun _ _ _ _ _ _ => (0, 0);
     stop_resolving := fun _ => false;
     process_results := fun _ vm => (fst vm, S (snd vm));
     instance_generator_next := toy_next waits;
     env := environment |}.

(** The same collaborators with a base model that the solver reports
    infeasible: no solution is loaded, and the objective has no value. *)
Definition infeasible_collab (environment : nat -> Ext -> Ext) : Collaborators :=
  {| build_instance := fun _ => base_model;
     opt_solve := fun _ m => (data m, infeasible);
     pyo_value := fun _ _ => None;
     TotalCost_rule := fun _ => "TotalCost_rule";
     get_manager := fun _ _ _ _ _ _ => (0, 0);
     stop_resolving := fun _ => false;
     process_results := fun _ vm => (fst vm, S (snd vm));
     instance_generator_next := toy_next [];
     env := environment |}.

Definition toy_config (db_out solver : string) (limit : option Z) : TemoaConfig :=
  {| input_database := "temoa.sqlite"; output_database := db_out;
     source_trace := true; save_lp_file := false; save_duals := false;
     save_excel := false; solver_name := solver;
     mga_inputs := {| mi_axis := None; mi_weighting := None;
                      mi_iteration_limit := limit; mi_time_limit_hrs := None;
                      mi_cost_epsilon := None |};
     scenario := "mga"; silent := true |}.

(** The object that the constructor builds from [toy_config] with the
    solver 'cbc', and two worlds: before [start], and at the head of the
    loop with six workers running and the base solve counted. *)
Definition toy_self (limit : Z) : MgaSequencer :=
  {| con := "temoa.sqlite";
     config := toy_config "temoa.sqlite" "cbc" (Some limit);
     opt := Some (SolverFactory "cbc" None); std_opt := None; options := Some [];
     internal_stop := false;
     mga_axis := TECH_CATEGORY_ACTIVITY; mga_weighting := HULL_EXPANSION;
     iteration_limit := limit; time_limit_hrs := 12%Z; cost_epsilon := 0.05%float;
     solve_records := []; solve_count := 0%Z; orig_label := "mga" |}.

Definition fresh_world (limit : Z) : World :=
  initial_world (toy_self limit) [].

Definition loop_world (limit clock : Z) (results : list (option TemoaModel)) : World :=
  {| self := set_solve_count 1%Z (toy_self limit);
     ext := {| wq := []; rq := results; alive := repeat true 6; now := clock |};
     work_max := 5; result_max := 5; closed := []; ticks := 1; trace := [] |}.

End Toy.

Section RunResults.
Context {X : External} {C : Collaborators}.

Definition run_trace (r : run_result) : list event :=
  match r with
  | ConstructorRaised _ tr => tr
  | Started o => trace (final o)
  end.

Definition run_returned (r : run_result) : bool :=
  match r with
  | ConstructorRaised _ _ => false
  | Started o => returned o
  end.

Definition is_blocked {A} (o : outcome A) : bool :=
  match o with Blocked _ => true | _ => false end.

(** The exception that ended the run, if one did. *)
Definition run_raised (r : run_result) : option exn :=
  match r with
  | ConstructorRaised e _ => Some e
  | Started (Raise e _) => Some e
  | Started _ => None
  end.

Definition is_status_log (status : TerminationCondition) (e : event) : bool :=
  match e, status with
  | ELogStatus optimal, optimal => true
  | ELogStatus infeasible, infeasible => true
  | ELogStatus unbounded, unbounded => true
  | ELogStatus (otherCondition a), otherCondition b => (a =? b)%string
  | _, _ => false
  end.

End RunResults.

(** ** The other methods of the class *)

Section OtherMethods.
Context {X : External} {C : Collaborators}.

(** [status == pyo.TerminationCondition.optimal] *)
Definition is_optimal (status : TerminationCondition) : bool :=
  match status with optimal => true | _ => false end.

(** [MgaSequencer.solve_instance] *)
Definition solve_instance (instance : TemoaModel) : M bool :=
  tic <- datetime_now ;;
  o <- self_opt ;;
  '(instance, res) <- solve o instance ;;
  toc <- datetime_now ;;
  status <- res_Solver_termination_condition res ;;
  logger INFO "Solve #%d time: %0.4f.  Status: %s" ;;
  ret (is_optimal status).

(** [MgaSequencer.__del__] on an object that the constructor has built:
    [self.con.close()] closes the connection kept in [con]. *)
Definition del : M unit :=
  s <- get_self ;;
  emit (ECloseConnection (con s)).

(** The opening or the closing of a database connection, and what a
    computation that does neither leaves as it is: the connection kept by
    the object and the connection events of the trace. *)
Definition is_connection_event (e : event) : bool :=
  match e with EConnect _ | ECloseConnection _ => true | _ => false end.

Definition holds_connection {A} (m : M A) : Prop :=
  forall w,
    con (self (final (m w))) = con (self w)
    /\ filter is_connection_event (trace (final (m w)))
       = filter is_connection_event (trace w).

(** More ways to read a trace. *)
Definition is_shutdown_event (e : event) : bool :=
  match e with
  | EPut None | EJoin _ | EClose _ | EFinalizeTracker => true
  | _ => false
  end.

Definition is_iterate_event (e : event) : bool :=
  match e with
  | ELog _ _ | EPrint _ | EPut (Some _) | ENext _ | EGet _
  | EProcessResults _ | EWriteCapacityTables _ _ | EPrintCount _ => true
  | _ => false
  end.

Definition is_info_log (e : event) : bool :=
  match e with ELog INFO _ => true | _ => false end.

Definition is_warning_log (e : event) : bool :=
  match e with ELog WARNING _ => true | _ => false end.

Definition is_log (e : event) : bool :=
  match e with ELog _ _ => true | _ => false end.

Definition worker_events (workers : list nat) : list event :=
  flat_map (fun h => [EWorkerNew h; EWorkerStart h]) workers.

(** The iteration numbers [c], [c + 1], ... ([n] of them). *)
Fixpoint iterations_from (c : Z) (n : nat) : list Z :=
  match n with
  | O => []
  | S n' => c :: iterations_from (c + 1)%Z n'
  end.

Definition is_out_of_fuel {A} (o : outcome A) : bool :=
  match o with OutOfFuel _ => true | _ => false end.

Definition is_model (item : option TemoaModel) : bool :=
  match item with Some _ => true | None => false end.

(** The work queue holds no more than its capacity. *)
Definition within_capacity (w : World) : Prop :=
  (List.length (wq (ext w)) <= work_max w)%nat.

(** The work queue and its capacity, together. *)
Definition capacity_is (n : nat) (w : World) : Prop :=
  within_capacity w /\ work_max w = n.

(** Assumptions on the workers: they only take from the work queue; they
    leave it alone; what they send on the result queue is never [None]. *)
Definition workers_only_take : Prop :=
  forall t e, (List.length (wq (env t e)) <= List.length (wq e))%nat.

Definition workers_take_nothing : Prop :=
  forall t e, wq (env t e) = wq e.

Definition workers_send_models : Prop :=
  forall t e, forallb is_model (rq e) = true -> forallb is_model (rq (env t e)) = true.

(** [m] keeps the property [I] of the world, whatever its outcome. *)
Definition keeps {A} (I : World -> Prop) (m : M A) : Prop :=
  forall w, I w -> I (final (m w)).

End OtherMethods.

(** ** The log listener, [listener_process]

    The queue is given by what its successive calls [queue.get(timeout=5)]
    answer: an item ([None] is the sentinel), the [Empty] of a timeout, or
    another exception.  [handle_fails] tells the records on which
    [logging.getLogger(record.name)] or [logger.handle(record)] raises.  The
    result is what the listener did and whether it left its loop. *)








(** ** More closed collaborators *)

Section MoreToys.
#[local] Existing Instance toy_types.

(** A configuration with every auxiliary output on, source tracing off and
    no MGA input. *)
Definition busy_config : TemoaConfig :=
  {| input_database := "temoa.sqlite"; output_database := "temoa.sqlite";
     source_trace := false; save_lp_file := true; save_duals := true;
     save_excel := true; solver_name := "gurobi";
     mga_inputs := {| mi_axis := None; mi_weighting := None;
                      mi_iteration_limit := None; mi_time_limit_hrs := None;
                      mi_cost_epsilon := None |};
     scenario := "mga"; silent := true |}.

(** A vector manager whose generator is exhausted. *)
Definition spent_collab (environment : nat -> Ext -> Ext) : Collaborators :=
  {| build_instance := fun _ => base_model;
     opt_solve := fun _ m => (data m, optimal);
     pyo_value := fun _ _ => Some 1000%float;
     TotalCost_rule := fun _ => "TotalCost_rule";
     get_manager := fun _ _ _ _ _ _ => (0, 0)%nat;
     stop_resolving := fun _ => false;
     process_results := fun _ vm => (fst vm, S (snd vm));
     instance_generator_next := fun _ _ => None;
     env := environment |}.

End MoreToys.

(** * Properties *)

Section Framework.
Context {X : External} {C : Collaborators}.

(** ** What a computation appends to the trace *)

Lemma appends_nothing {A} P (m : M A) :
  (forall w, trace (final (m w)) = trace w) -> appends P m.
Proof.
  intros H w. exists []. rewrite app_nil_r. split; [apply H | reflexivity].
Qed.

Lemma appends_ret {A} P (a : A) : appends P (ret a).
Proof. apply appends_nothing. reflexivity. Qed.

Lemma appends_raise {A} P e : appends P (@raise _ A e).
Proof. apply appends_nothing. reflexivity. Qed.

Lemma appends_emit P e : P e = true -> appends P (emit e).
Proof.
  intros H w. exists [e]. split; [reflexivity | simpl; now rewrite H].
Qed.

Lemma appends_bind {A B} P (m : M A) (k : A -> M B) :
  appends P m -> (forall a, appends P (k a)) -> appends P (bind m k).
Proof.
  intros Hm Hk w. unfold bind.
  destruct (Hm w) as [evs [E1 F1]].
  destruct (m w) as [a w'| e w' | w' | w']; simpl in *; eauto.
  destruct (Hk a w') as [evs' [E2 F2]].
  exists (evs ++ evs'). rewrite E2, E1, app_assoc, forallb_app, F1, F2. auto.
Qed.

Lemma appends_try {A} P (m : M A) h :
  appends P m -> (forall e k, h e = Some k -> appends P k) ->
  appends P (try_except m h).
Proof.
  intros Hm Hh w. unfold try_except.
  destruct (Hm w) as [evs [E1 F1]].
  destruct (m w) as [a w'| e w' | w' | w']; simpl in *; eauto.
  destruct (h e) as [k|] eqn:Ek; simpl; eauto.
  destruct (Hh e k Ek w') as [evs' [E2 F2]].
  exists (evs ++ evs'). rewrite E2, E1, app_assoc, forallb_app, F1, F2. auto.
Qed.

Lemma appends_weaken {A} (P Q : event -> bool) (m : M A) :
  (forall e, P e = true -> Q e = true) -> appends P m -> appends Q m.
Proof.
  intros HPQ Hm w. destruct (Hm w) as [evs [E F]]. exists evs. split; auto.
  rewrite forallb_forall in *. auto.
Qed.

Lemma appends_tick P : appends P tick.
Proof. apply appends_nothing. reflexivity. Qed.

Lemma appends_get_self P : appends P get_self.
Proof. apply appends_nothing. reflexivity. Qed.

Lemma appends_modify_self P f : appends P (modify_self f).
Proof. apply appends_nothing. reflexivity. Qed.

Lemma appends_is_alive P h : appends P (is_alive h).
Proof. apply appends_nothing. reflexivity. Qed.

Lemma appends_put P item block :
  P (EPut item) = true -> appends P (work_queue_put item block).
Proof.
  intros H w. unfold work_queue_put, bind, tick; simpl.
  destruct (_ <? _)%nat; simpl.
  - exists [EPut item]. simpl. now rewrite H.
  - exists []. rewrite app_nil_r. destruct block; auto.
Qed.

Lemma appends_get P block :
  (forall r, P (EGet r) = true) -> appends P (result_queue_get block).
Proof.
  intros H w. unfold result_queue_get, bind, tick; simpl.
  destruct (rq _) as [|r rest]; simpl.
  - exists []. rewrite app_nil_r. destruct block; auto.
  - exists [EGet r]. simpl. now rewrite H.
Qed.

Lemma appends_join P h : P (EJoin h) = true -> appends P (join h).
Proof.
  intros H w. unfold join, bind, tick; simpl.
  destruct (nth h _ false); simpl.
  - exists []. now rewrite app_nil_r.
  - exists [EJoin h]. simpl. now rewrite H.
Qed.

Lemma appends_close P q : P (EClose q) = true -> appends P (queue_close q).
Proof.
  intros H w. exists [EClose q]. simpl. now rewrite H.
Qed.

Lemma appends_for_each {A} P (l : list A) f :
  (forall a, appends P (f a)) -> appends P (for_each l f).
Proof.
  intros Hf. induction l as [|a l IH]; simpl.
  - apply appends_ret.
  - apply appends_bind; auto.
Qed.

Lemma appends_next P vm : (forall c, P (ENext c) = true) -> appends P (next vm).
Proof.
  intros H. unfold next. apply appends_bind; [apply appends_get_self|].
  intros s. destruct (instance_generator_next _ _) as [[c vm']|].
  - apply appends_bind; [now apply appends_emit | intros; apply appends_ret].
  - apply appends_raise.
Qed.

End Framework.

Section Constructor.
Context {X : External} {C : Collaborators}.

(** ** The constructor *)

Lemma init_same_databases (cfg : TemoaConfig) (tr0 : list event) :
  (input_database cfg =? output_database cfg) = true ->
  exists s tr, init cfg tr0 = (inr s, tr).
Proof.
  intros H. unfold init. rewrite H. simpl.
  destruct (solver_name cfg =? "appsi_highs"), (solver_name cfg =? "gurobi"),
    (solver_name cfg =? "cbc"), (mi_axis (mga_inputs cfg)),
    (mi_weighting (mga_inputs cfg)); simpl; eauto.
Qed.

(** The attributes of a constructed object. *)
Lemma init_attributes (cfg : TemoaConfig) (tr0 tr : list event) (s : MgaSequencer) :
  init cfg tr0 = (inr s, tr) ->
  options s = (if solver_name cfg =? "appsi_highs" then None
               else if solver_name cfg =? "gurobi" then Some gurobi_options_dict
               else if solver_name cfg =? "cbc" then Some [] else None)
  /\ opt s = (if solver_name cfg =? "appsi_highs" then Some Highs
              else if solver_name cfg =? "gurobi"
                   then Some (SolverFactory "gurobi" (Some gurobi_options_dict))
              else if solver_name cfg =? "cbc" then Some (SolverFactory "cbc" None)
              else None)
  /\ internal_stop s = false
  /\ solve_count s = 0%Z
  /\ iteration_limit s = get_or (mi_iteration_limit (mga_inputs cfg)) 20%Z
  /\ time_limit_hrs s = get_or (mi_time_limit_hrs (mga_inputs cfg)) 12%Z
  /\ cost_epsilon s = get_or (mi_cost_epsilon (mga_inputs cfg)) 0.05%float.
Proof.
  unfold init. destruct (negb _); [discriminate|]. simpl.
  destruct (solver_name cfg =? "appsi_highs"), (solver_name cfg =? "gurobi"),
    (solver_name cfg =? "cbc"), (mi_axis (mga_inputs cfg)),
    (mi_weighting (mga_inputs cfg)); simpl;
    intros H; inversion H; subst; simpl; repeat split; reflexivity.
Qed.

(** C8 - when the input and the output database differ, the constructor
    raises [NotImplementedError] as its first action: the trace of side
    effects is left as it was (no connection opened, no writer created, no
    records cleared) and no run starts. *)
Theorem init_rejects_mismatched_databases
  (cfg : TemoaConfig) (tr : list event) (fuel : nat) :
  (input_database cfg =? output_database cfg) = false ->
  init cfg tr
    = (inl (NotImplementedError "MGA assumes input and output databases are same"), tr)
  /\ run cfg fuel
    = ConstructorRaised
        (NotImplementedError "MGA assumes input and output databases are same") [].
Proof.
  intros H. unfold run, init. rewrite H. simpl. split; reflexivity.
Qed.

End Constructor.

Section Steps.
Context {X : External} {C : Collaborators}.

(** ** Lists of events *)

Lemma filter_none (P : event -> bool) (l : list event) :
  forallb (fun e => negb (P e)) l = true -> filter P l = [].
Proof.
  induction l as [|a l IH]; simpl; [reflexivity|].
  destruct (P a); simpl; [discriminate | exact IH].
Qed.

Lemma never_after_app (P Q : event -> bool) (l1 l2 : list event) :
  forallb (fun e => negb (Q e)) l1 = true ->
  forallb (fun e => negb (P e)) l2 = true ->
  never_after P Q (l1 ++ l2) = true.
Proof.
  intros H1 H2. induction l1 as [|a l1 IH]; simpl in *.
  - induction l2 as [|b l2 IH2]; simpl in *; [reflexivity|].
    apply andb_prop in H2 as [_ H2]. rewrite H2, (IH2 H2). now destruct (Q b).
  - apply andb_prop in H1 as [Ha H1]. rewrite (IH H1).
    destruct (Q a); [discriminate | reflexivity].
Qed.

Lemma forallb_weaken (P Q : event -> bool) (l : list event) :
  (forall e, P e = true -> Q e = true) -> forallb P l = true -> forallb Q l = true.
Proof. intros H. rewrite !forallb_forall. auto. Qed.

(** ** Steps 1 to 4 *)

(** With a legacy solver handle and an objective that has a value on the
    solved base instance, steps 1 to 4 run to their end whatever status the
    solver answers, and hand over to the pool in a world whose trace is
    known. *)
Lemma start_reaches_pool (fuel : nat) (w : World) (name : string)
  (gopts : option SolverOptions) (e : Expr) (v : float) :
  let o := SolverFactory name gopts in
  opt (self w) = Some o ->
  TotalCost (build_instance (config (self w))) = Some e ->
  pyo_value e (data (solved_instance o (build_instance (config (self w))))) = Some v ->
  exists w1,
    start fuel w
      = run_pool fuel
          (get_manager (mga_axis (self w)) (relaxed_instance (self w) o v)
             (mga_weighting (self w)) (con (self w)) v
             (cost_epsilon (self w))) w1
    /\ trace w1 = trace w ++ base_events (self w) o ++ relax_events (self w) o v
    /\ self w1 = set_solve_count (solve_count (self w) + 1) (self w).
Proof.
  intros o Ho He Hv. subst o.
  unfold start, load_data, base_solve, self_opt, solve, relax_cost,
    value_TotalCost, set_cost_cap, del_TotalCost, instantiate_manager,
    res_solver_termination_condition, results_of,
    logger, bind, get_self, emit, tick, datetime_now, modify_self, ret. simpl.
  rewrite Ho. simpl. rewrite He. simpl in Hv |- *. rewrite Hv. simpl.
  eexists. split; [reflexivity|]. simpl. split; [|reflexivity].
  unfold base_events, relax_events. rewrite <- !app_assoc. reflexivity.
Qed.

Lemma start_without_opt (fuel : nat) (w : World) :
  opt (self w) = None ->
  exists w', start fuel w = Raise (AttributeError "opt") w'
             /\ trace w' = trace w ++ [ELoadDataPortal; EBuildInstance].
Proof.
  intros Ho.
  unfold start, load_data, base_solve, self_opt, bind, get_self, emit,
    datetime_now, ret, raise. simpl. rewrite Ho.
  eexists. split; [reflexivity|]. simpl. now rewrite <- app_assoc.
Qed.

(** With the appsi handle the base solve runs and is counted, and reading
    [res.solver] on its results ends the run: nothing is recorded. *)
Lemma start_with_highs (fuel : nat) (w : World) :
  opt (self w) = Some Highs ->
  exists w', start fuel w = Raise (AttributeError "solver") w'
             /\ trace w' = trace w ++ unread_solve_events (self w)
             /\ self w' = set_solve_count (solve_count (self w) + 1) (self w).
Proof.
  intros Ho.
  unfold start, load_data, base_solve, self_opt, solve,
    res_solver_termination_condition, results_of,
    logger, bind, get_self, emit, tick, datetime_now, modify_self, ret, raise.
  simpl. rewrite Ho. simpl.
  eexists. split; [reflexivity|]. simpl. split; [|reflexivity].
  unfold unread_solve_events. rewrite <- !app_assoc. reflexivity.
Qed.

Lemma start_without_objective (fuel : nat) (w : World) (name : string)
  (gopts : option SolverOptions) :
  let o := SolverFactory name gopts in
  opt (self w) = Some o ->
  TotalCost (build_instance (config (self w))) = None ->
  exists w', start fuel w = Raise (AttributeError "TotalCost") w'
             /\ trace w' = trace w ++ base_events (self w) o.
Proof.
  intros o Ho He. subst o.
  unfold start, load_data, base_solve, self_opt, solve, relax_cost,
    value_TotalCost, res_solver_termination_condition, results_of,
    logger, bind, get_self, emit, tick, datetime_now,
    modify_self, ret, raise. simpl.
  rewrite Ho. simpl. rewrite He. simpl.
  eexists. split; [reflexivity|]. simpl.
  unfold base_events. rewrite <- !app_assoc. reflexivity.
Qed.

(** When the objective has no value on the solved base instance,
    [pyo.value] ends the run once the base result is recorded. *)
Lemma start_without_value (fuel : nat) (w : World) (name : string)
  (gopts : option SolverOptions) (e : Expr) :
  let o := SolverFactory name gopts in
  opt (self w) = Some o ->
  TotalCost (build_instance (config (self w))) = Some e ->
  pyo_value e (data (solved_instance o (build_instance (config (self w))))) = None ->
  exists w', start fuel w = Raise ValueError w'
             /\ trace w' = trace w ++ base_events (self w) o.
Proof.
  intros o Ho He Hv. subst o.
  unfold start, load_data, base_solve, self_opt, solve, relax_cost,
    value_TotalCost, res_solver_termination_condition, results_of,
    logger, bind, get_self, emit, tick, datetime_now,
    modify_self, ret, raise. simpl.
  rewrite Ho. simpl. rewrite He. simpl in Hv |- *. rewrite Hv. simpl.
  eexists. split; [reflexivity|]. simpl.
  unfold base_events. rewrite <- !app_assoc. reflexivity.
Qed.

(** ** Step 5 *)

Lemma make_workers_returns (n : nat) (workers : list nat) (w : World) :
  exists workers' w',
    make_workers n workers w = Ret workers' w'
    /\ self w' = self w
    /\ List.length workers' = (List.length workers + n)%nat.
Proof.
  revert workers w. induction n as [|n IH]; intros workers w; simpl.
  - exists workers, w. repeat split. lia.
  - unfold bind, Worker_new, Worker_start. simpl.
    match goal with |- context [make_workers n ?ws ?w0] =>
      destruct (IH ws w0) as [ws' [w' [E [S L]]]] end.
    exists ws', w'. rewrite E. repeat split; [exact S|].
    rewrite L, length_app. simpl. lia.
Qed.

Lemma run_pool_without_options (fuel : nat) (vm : VM) (w : World) :
  options (self w) = None ->
  exists w', run_pool fuel vm w = Raise (AttributeError "options") w'
             /\ trace w' = trace w ++ queue_events.
Proof.
  intros Ho.
  unfold run_pool, set_up_workers, new_queue, self_options, bind, get_self,
    emit, raise. simpl. rewrite Ho.
  eexists. split; [reflexivity|]. simpl. now rewrite <- !app_assoc.
Qed.

Lemma bind_of_ret {A B} (m : M A) (k : A -> M B) (w w' : World) (a : A) :
  m w = Ret a w' -> bind m k w = k a w'.
Proof. intros E. unfold bind. now rewrite E. Qed.

Lemma bind_bind_of_ret {A B D} (m : M A) (k1 : A -> M B) (k2 : B -> M D)
  (w w' : World) (a : A) :
  m w = Ret a w' -> bind (bind m k1) k2 w = bind (k1 a) k2 w'.
Proof. intros E. unfold bind. now rewrite E. Qed.

Lemma set_up_workers_returns (w : World) (opts : SolverOptions) :
  options (self w) = Some opts ->
  exists workers w',
    set_up_workers w = Ret workers w'
    /\ self w' = self w
    /\ List.length workers = num_workers.
Proof.
  intros Ho. unfold set_up_workers. generalize num_workers as n. intros n.
  unfold new_queue, self_options, bind, get_self, emit, ret.
  simpl. rewrite Ho.
  match goal with |- context [make_workers n [] ?w0] =>
    destruct (make_workers_returns n [] w0) as [ws [w' [E [S L]]]] end.
  exists ws, w'. rewrite E. auto.
Qed.

Lemma next_returns (vm vm1 : VM) (c : candidate) (w : World) :
  instance_generator_next (config (self w)) vm = Some (c, vm1) ->
  next vm w = Ret (c, vm1) (with_trace (fun tr => tr ++ [ENext c]) w).
Proof.
  intros Hn. unfold next, bind, get_self, emit, ret. now rewrite Hn.
Qed.

Lemma run_pool_reaches_loop (fuel : nat) (vm vm1 : VM) (c : candidate)
  (w : World) (opts : SolverOptions) :
  options (self w) = Some opts ->
  instance_generator_next (config (self w)) vm = Some (c, vm1) ->
  exists workers w2,
    run_pool fuel vm w
      = (main_loop fuel vm1 c ;; shutdown workers ;; emit EFinalizeTracker) w2
    /\ self w2 = self w
    /\ List.length workers = num_workers.
Proof.
  intros Ho Hn.
  destruct (set_up_workers_returns w opts Ho) as [ws [w' [E [S L]]]].
  unfold run_pool. rewrite (bind_of_ret _ _ _ _ _ E).
  unfold iterate. rewrite <- S in Hn.
  rewrite (bind_bind_of_ret _ _ _ _ _ _ (next_returns _ _ _ _ Hn)).
  exists ws. eexists. split; [reflexivity|]. split; [exact S | exact L].
Qed.

End Steps.

Section PoolEvents.
Context {X : External} {C : Collaborators}.

(** ** The events of steps 5 to 8 *)

Ltac appends_step :=
  first
    [ apply appends_ret | apply appends_raise | apply appends_tick
    | apply appends_get_self | apply appends_modify_self | apply appends_is_alive
    | apply appends_emit; reflexivity
    | apply appends_put; reflexivity
    | apply appends_get; reflexivity
    | apply appends_join; reflexivity
    | apply appends_close; reflexivity
    | apply appends_next; reflexivity
    | apply appends_for_each; intros
    | apply appends_bind; [|intros] ].

Lemma appends_new_queue q n : appends is_pool_event (new_queue q n).
Proof.
  unfold new_queue. apply appends_bind; [apply appends_emit; reflexivity|].
  intros _. apply appends_nothing. intros w. now destruct q.
Qed.

Lemma appends_self_options : appends is_pool_event self_options.
Proof.
  unfold self_options. apply appends_bind; [apply appends_get_self|].
  intros s. destruct (options s); [apply appends_ret | apply appends_raise].
Qed.

Lemma appends_make_workers n workers : appends is_pool_event (make_workers n workers).
Proof.
  revert workers. induction n as [|n IH]; intros workers; simpl.
  - apply appends_ret.
  - apply appends_bind.
    + intros w. exists [EWorkerNew (List.length (alive (ext w)))]. auto.
    + intros h. apply appends_bind; [|intros; apply IH].
      intros w. exists [EWorkerStart h]. auto.
Qed.

Lemma appends_submit_work vm instance :
  appends is_pool_event (submit_work vm instance).
Proof.
  unfold submit_work. apply appends_try.
  - destruct instance as [|m]; [appends_step|].
    apply appends_bind; [appends_step|]. intros _.
    apply appends_bind; [appends_step|]. intros [c vm']. appends_step.
  - intros e k. destruct e; try discriminate. intros [= <-].
    unfold print. repeat appends_step.
Qed.

Lemma appends_poll_result : appends is_pool_event poll_result.
Proof.
  unfold poll_result. apply appends_try.
  - appends_step.
  - intros e k. destruct e; try discriminate. intros [= <-]. appends_step.
Qed.

Lemma appends_round vm instance : appends is_pool_event (round vm instance).
Proof.
  unfold round, logger. appends_step. appends_step.
  apply appends_bind; [apply appends_submit_work|]. intros [vm' c].
  apply appends_bind; [apply appends_poll_result|]. intros [r|].
  - unfold process_solve_results. repeat appends_step.
    destruct (_ <=? _)%Z; appends_step.
  - appends_step.
Qed.

Lemma appends_main_loop fuel vm instance :
  appends is_pool_event (main_loop fuel vm instance).
Proof.
  assert (Hc : forall v, appends is_pool_event (loop_condition v))
    by (intros v; unfold loop_condition; repeat appends_step).
  revert vm instance. induction fuel as [|fuel IH]; intros vm instance; simpl;
    (apply appends_bind; [apply Hc|]); intros [|].
  - apply appends_nothing. reflexivity.
  - apply appends_ret.
  - apply appends_bind; [apply appends_round|]. intros [vm' c]. apply IH.
  - apply appends_ret.
Qed.

Lemma appends_shutdown workers : appends is_pool_event (shutdown workers).
Proof. unfold shutdown, print. repeat appends_step. Qed.

Lemma appends_run_pool fuel vm : appends is_pool_event (run_pool fuel vm).
Proof.
  unfold run_pool, set_up_workers, iterate.
  apply appends_bind.
  - apply appends_bind; [apply appends_new_queue | intros _].
    apply appends_bind; [apply appends_new_queue | intros _].
    apply appends_bind; [apply appends_new_queue | intros _].
    apply appends_bind; [apply appends_self_options | intros _].
    apply appends_make_workers.
  - intros workers. apply appends_bind.
    + apply appends_bind; [apply appends_next; reflexivity|].
      intros [c vm']. apply appends_main_loop.
    + intros _. apply appends_bind; [apply appends_shutdown|].
      intros _. apply appends_emit. reflexivity.
Qed.

End PoolEvents.

Section BaseSolve.
Context {X : External} {C : Collaborators}.

(** ** The constructor's trace *)

Lemma init_events (cfg : TemoaConfig) (tr0 tr : list event) (s : MgaSequencer) :
  init cfg tr0 = (inr s, tr) ->
  exists evs, tr = tr0 ++ evs /\ forallb is_constructor_event evs = true.
Proof.
  unfold init, disable_flag. destruct (negb _); [discriminate|]. simpl.
  destruct (if solver_name cfg =? "appsi_highs" then _ else _) as [[o so] os].
  destruct (source_trace cfg), (save_lp_file cfg), (save_duals cfg),
    (save_excel cfg), (mi_axis (mga_inputs cfg)),
    (mi_weighting (mga_inputs cfg)); simpl;
    intros H; inversion H; subst; clear H;
    rewrite <- ?app_assoc; simpl; eexists; (split; [reflexivity | reflexivity]).
Qed.

Lemma existsb_none (P Q : event -> bool) (l : list event) :
  (forall e, P e = true -> Q e = false) ->
  forallb P l = true -> existsb Q l = false.
Proof.
  intros H. induction l as [|a l IH]; simpl; [reflexivity|].
  intros F. apply andb_prop in F as [Fa F]. now rewrite (H a Fa), (IH F).
Qed.

Lemma constructor_not_worker e : is_constructor_event e = true -> is_worker_event e = false.
Proof. now destruct e. Qed.

Lemma constructor_not_solve e : is_constructor_event e = true -> is_solve e = false.
Proof. now destruct e. Qed.

Lemma constructor_not_queue e : is_constructor_event e = true -> is_new_queue e = false.
Proof. now destruct e. Qed.

Lemma constructor_not_write e :
  is_constructor_event e = true -> is_write_results e = false.
Proof. now destruct e. Qed.

(** C10 (as amended) - for a solver name that is neither 'gurobi' nor
    'cbc', the constructed object has no [options] attribute, so reading it
    raises an attribute error, and steps 5 to 8 would fail on it once the
    queues are made; but [start] never gets there: it ends in an attribute
    error before any queue or worker is created and before any result is
    written.  With 'appsi_highs' the error is on [solver], when the results
    of the base solve (run and counted) are read; with a name outside the
    three, [opt] is unset too and the error is on [opt], without any
    solve. *)
Theorem options_unset_outside_gurobi_cbc (cfg : TemoaConfig) (fuel : nat) :
  (input_database cfg =? output_database cfg) = true ->
  (solver_name cfg =? "gurobi") = false ->
  (solver_name cfg =? "cbc") = false ->
  exists s tr,
    init cfg [] = (inr s, tr)
    /\ options s = None
    /\ (forall w, self w = s -> self_options w = Raise (AttributeError "options") w)
    /\ (forall vm w, self w = s ->
        exists w', run_pool fuel vm w = Raise (AttributeError "options") w'
                   /\ trace w' = trace w ++ queue_events)
    /\ (exists attr w',
          start fuel (initial_world s tr) = Raise (AttributeError attr) w'
          /\ (attr = "solver" \/ attr = "opt")
          /\ existsb is_worker_event (trace w') = false
          /\ existsb is_new_queue (trace w') = false
          /\ existsb is_write_results (trace w') = false)
    /\ ((solver_name cfg =? "appsi_highs") = true ->
        opt s = Some Highs
        /\ exists w',
             start fuel (initial_world s tr) = Raise (AttributeError "solver") w'
             /\ trace w' = tr ++ unread_solve_events s
             /\ solve_count (self w') = 1%Z)
    /\ ((solver_name cfg =? "appsi_highs") = false ->
        opt s = None
        /\ exists w',
             start fuel (initial_world s tr) = Raise (AttributeError "opt") w'
             /\ trace w' = tr ++ [ELoadDataPortal; EBuildInstance]).
Proof.
  intros Hdb Hg Hc.
  destruct (init_same_databases cfg [] Hdb) as [s [tr Hi]].
  destruct (init_attributes _ _ _ _ Hi) as (Hopts & Hopt & _ & Hcount & _).
  destruct (init_events _ _ _ _ Hi) as (evs & -> & Hevs). simpl in Hi.
  rewrite Hg, Hc in Hopts, Hopt.
  assert (Ho : options s = None) by (rewrite Hopts; now destruct (solver_name cfg =? "appsi_highs")).
  assert (Hw : existsb is_worker_event evs = false)
    by (apply (existsb_none _ _ _ constructor_not_worker Hevs)).
  assert (Hq : existsb is_new_queue evs = false)
    by (apply (existsb_none _ _ _ constructor_not_queue Hevs)).
  assert (Hr : existsb is_write_results evs = false)
    by (apply (existsb_none _ _ _ constructor_not_write Hevs)).
  exists s, evs. split; [exact Hi|]. split; [exact Ho|]. split.
  { intros w <-. unfold self_options, bind, get_self, raise. now rewrite Ho. }
  split.
  { intros vm w <-. apply run_pool_without_options. exact Ho. }
  assert (Happsi : opt s = Some Highs ->
            exists w', start fuel (initial_world s evs)
                       = Raise (AttributeError "solver") w'
              /\ trace w' = evs ++ unread_solve_events s
              /\ solve_count (self w') = 1%Z).
  { intros Hopt'.
    destruct (start_with_highs fuel (initial_world s evs) Hopt') as (w' & E & T & S).
    exists w'. split; [exact E|]. split; [exact T|].
    rewrite S. simpl. now rewrite Hcount. }
  assert (Hnone : opt s = None ->
            exists w', start fuel (initial_world s evs)
                       = Raise (AttributeError "opt") w'
              /\ trace w' = evs ++ [ELoadDataPortal; EBuildInstance]).
  { intros Hopt'. apply (start_without_opt fuel (initial_world s evs) Hopt'). }
  split; [|split].
  - destruct (solver_name cfg =? "appsi_highs").
    + destruct (Happsi Hopt) as (w' & E & T & _).
      exists "solver", w'. split; [exact E|]. split; [now left|].
      rewrite T, !existsb_app, Hw, Hq, Hr. repeat split.
    + destruct (Hnone Hopt) as (w' & E & T).
      exists "opt", w'. split; [exact E|]. split; [now right|].
      rewrite T, !existsb_app, Hw, Hq, Hr. repeat split.
  - intros Ha. rewrite Ha in Hopt. split; [exact Hopt|]. exact (Happsi Hopt).
  - intros Ha. rewrite Ha in Hopt. split; [exact Hopt|]. exact (Hnone Hopt).
Qed.

(** C9 (as amended) - with a solver whose results are read as
    [res.solver], the base solve's result is recorded for every termination
    status: the status is logged, the result is written, and no step looks
    at the status.  What happens next depends on the objective, not on the
    status: when it has a value on the solved instance, control goes on to
    the cost relaxation, the vector manager and the pool, and with the
    worker options set and a first candidate the loop is entered; when it
    has none, reading it raises [ValueError] right after the result is
    written, with no relaxation, no queue and no loop.  With the appsi
    handle nothing is recorded: the results have no [solver] attribute, and
    the run ends on reading it. *)
Theorem base_result_recorded_whatever_status
  (fuel : nat) (w : World) (o : Solver) (e : Expr) (status : TerminationCondition) :
  opt (self w) = Some o ->
  TotalCost (build_instance (config (self w))) = Some e ->
  snd (opt_solve o (build_instance (config (self w)))) = status ->
  let recorded :=
    [ELoadDataPortal; EBuildInstance;
     ESolve (build_instance (config (self w)));
     ELog INFO "Initial solve time: ";
     ELogStatus status;
     EWriteResults (solved_instance o (build_instance (config (self w))))] in
  let value := pyo_value e (data (solved_instance o (build_instance (config (self w))))) in
  (forall name gopts, o = SolverFactory name gopts ->
     (exists evs, trace (final (start fuel w)) = trace w ++ recorded ++ evs)
     /\ (forall v, value = Some v ->
         exists w1 vm,
           start fuel w = run_pool fuel vm w1
           /\ trace w1 = trace w ++ recorded ++ relax_events (self w) o v
           /\ forall opts c vm1,
                options (self w) = Some opts ->
                instance_generator_next (config (self w)) vm = Some (c, vm1) ->
                exists workers w2,
                  start fuel w
                  = (main_loop fuel vm1 c ;; shutdown workers ;; emit EFinalizeTracker) w2)
     /\ (value = None ->
         exists w', start fuel w = Raise ValueError w'
                    /\ trace w' = trace w ++ recorded))
  /\ (o = Highs ->
      exists w', start fuel w = Raise (AttributeError "solver") w'
                 /\ trace w' = trace w ++ unread_solve_events (self w)).
Proof.
  intros Ho He Hs recorded value. split.
  - intros name gopts ->.
    assert (Hrec : base_events (self w) (SolverFactory name gopts) = recorded)
      by (unfold base_events, recorded; now rewrite Hs).
    assert (Hsome : forall v, value = Some v ->
              exists w1 vm,
                start fuel w = run_pool fuel vm w1
                /\ trace w1 = trace w ++ recorded
                              ++ relax_events (self w) (SolverFactory name gopts) v
                /\ forall opts c vm1,
                     options (self w) = Some opts ->
                     instance_generator_next (config (self w)) vm = Some (c, vm1) ->
                     exists workers w2,
                       start fuel w
                       = (main_loop fuel vm1 c ;; shutdown workers ;;
                          emit EFinalizeTracker) w2).
    { intros v Hv.
      destruct (start_reaches_pool fuel w name gopts e v Ho He Hv) as (w1 & E & T & S).
      eexists w1, _. split; [exact E|]. split; [now rewrite T, Hrec|].
      intros opts c vm1 Hopts Hn.
      assert (Hopts' : options (self w1) = Some opts) by (rewrite S; exact Hopts).
      assert (Hn' : instance_generator_next (config (self w1))
                      (get_manager (mga_axis (self w))
                         (relaxed_instance (self w) (SolverFactory name gopts) v)
                         (mga_weighting (self w)) (con (self w)) v
                         (cost_epsilon (self w)))
                    = Some (c, vm1)) by (rewrite S; exact Hn).
      destruct (run_pool_reaches_loop fuel _ vm1 c w1 opts Hopts' Hn')
        as (ws & w2 & E2 & _).
      exists ws, w2. now rewrite E, E2. }
    assert (Hnone : value = None ->
              exists w', start fuel w = Raise ValueError w'
                         /\ trace w' = trace w ++ recorded).
    { intros Hv.
      destruct (start_without_value fuel w name gopts e Ho He Hv) as (w' & E & T).
      exists w'. split; [exact E|]. now rewrite T, Hrec. }
    split; [|split; [exact Hsome | exact Hnone]].
    destruct value as [v|] eqn:Hv.
    + destruct (Hsome v eq_refl) as (w1 & vm & E & T & _).
      destruct (appends_run_pool fuel vm w1) as (evs & T2 & _).
      exists (relax_events (self w) (SolverFactory name gopts) v ++ evs).
      rewrite E, T2, T. now rewrite <- !app_assoc.
    + destruct (Hnone eq_refl) as (w' & E & T).
      exists []. rewrite E. simpl. exact T.
  - intros ->. destruct (start_with_highs fuel w Ho) as (w' & E & T & _). eauto.
Qed.


End BaseSolve.

Section Round.
Context {X : External} {C : Collaborators}.

(** ** One round of the loop *)

Lemma bind_cases {A B} (m : M A) (k : A -> M B) (w : World) :
  (exists a w1, m w = Ret a w1 /\ bind m k w = k a w1)
  \/ (returned (m w) = false
      /\ final (bind m k w) = final (m w)
      /\ returned (bind m k w) = false).
Proof.
  unfold bind. destruct (m w) as [a w1|e w1|w1|w1]; simpl; eauto.
Qed.

Lemma bind_ret_inv {A B} (m : M A) (k : A -> M B) (w w' : World) (b : B) :
  bind m k w = Ret b w' -> exists a w1, m w = Ret a w1 /\ k a w1 = Ret b w'.
Proof.
  unfold bind. destruct (m w) as [a w1|e w1|w1|w1]; try discriminate. eauto.
Qed.

(** The submit, case by case. *)
Lemma submit_work_waiting (vm : VM) (w : World) :
  submit_work vm Waiting w = Ret (vm, Waiting) w.
Proof. reflexivity. Qed.

Lemma submit_work_full (vm : VM) (m : TemoaModel) (w : World) :
  (List.length (wq (ext (ticked w))) <? work_max w)%nat = false ->
  submit_work vm (Instance m) w
  = Ret (vm, Instance m)
        (with_trace (fun tr => tr ++ [EPrint "work queue is full"]) (ticked w)).
Proof.
  intros H. unfold submit_work, try_except, work_queue_put, bind, tick. simpl in *.
  now rewrite H.
Qed.

Lemma submit_work_room (vm : VM) (m : TemoaModel) (w : World) :
  (List.length (wq (ext (ticked w))) <? work_max w)%nat = true ->
  let w1 := with_trace (fun tr => tr ++ [EPut (Some m)])
              (with_ext (fun e => set_wq (wq e ++ [Some m]) e) (ticked w)) in
  submit_work vm (Instance m) w
  = match instance_generator_next (config (self w)) vm with
    | Some (c, vm') => Ret (vm', c) (with_trace (fun tr => tr ++ [ENext c]) w1)
    | None => Raise StopIteration w1
    end.
Proof.
  intros H. unfold submit_work, try_except, work_queue_put, next, bind, tick,
    get_self, emit, ret, raise. simpl in *. rewrite H. simpl.
  destruct (instance_generator_next _ _) as [[c vm']|]; reflexivity.
Qed.

(** C6 - the submit of a candidate never blocks and never loses it.  When
    the work queue is full at the time of the put, the submit returns with
    the same candidate and the same vector manager, the queue and the
    generator untouched; when there is room, the candidate is appended to
    the queue and only then is the generator advanced.  In every case a pull
    from the generator is preceded by the successful put, and a round that
    found the queue full hands the same candidate to the next round. *)
Theorem full_work_queue_keeps_candidate (vm : VM) (m : TemoaModel) (w : World) :
  exists evs,
    trace (final (submit_work vm (Instance m) w)) = trace w ++ evs
    /\ (forall w', submit_work vm (Instance m) w <> Blocked w')
    /\ (if (List.length (wq (ext (ticked w))) <? work_max w)%nat
        then wq (ext (final (submit_work vm (Instance m) w)))
             = wq (ext (ticked w)) ++ [Some m]
             /\ (evs = [EPut (Some m)] \/ exists c, evs = [EPut (Some m); ENext c])
        else submit_work vm (Instance m) w
             = Ret (vm, Instance m) (final (submit_work vm (Instance m) w))
             /\ evs = [EPrint "work queue is full"]
             /\ wq (ext (final (submit_work vm (Instance m) w))) = wq (ext (ticked w)))
    /\ (existsb is_next evs = true -> exists c, evs = [EPut (Some m); ENext c])
    /\ (forall vm' c' w',
          (List.length (wq (ext (ticked w))) <? work_max w)%nat = false ->
          round vm (Instance m) w = Ret (vm', c') w' -> c' = Instance m).
Proof.
  destruct (List.length (wq (ext (ticked w))) <? work_max w)%nat eqn:Hroom.
  - pose proof (submit_work_room vm m w Hroom) as E. simpl in E.
    destruct (instance_generator_next (config (self w)) vm) as [[c vm']|].
    + exists [EPut (Some m); ENext c]. rewrite E. simpl.
      rewrite <- app_assoc. repeat split; eauto; try discriminate.
    + exists [EPut (Some m)]. rewrite E. simpl.
      repeat split; eauto; try discriminate.
  - pose proof (submit_work_full vm m w Hroom) as E.
    exists [EPrint "work queue is full"]. rewrite E. simpl.
    repeat split; try discriminate.
    intros vm' c' w' _ Hr. unfold round, logger in Hr.
    apply bind_ret_inv in Hr as (u & w0 & E0 & Hr).
    injection E0 as _ <-.
    apply bind_ret_inv in Hr as ([vm1 c1] & w1 & E1 & Hr).
    rewrite submit_work_full in E1 by exact Hroom.
    injection E1 as <- <- <-.
    apply bind_ret_inv in Hr as (r & w2 & _ & Hr).
    destruct r as [r|].
    + unfold ingest_result, process_solve_results, bind, emit, get_self,
        modify_self, ret in Hr. simpl in Hr.
      destruct (_ <=? _)%Z; simpl in Hr; now injection Hr as _ <- _.
    + now injection Hr as _ <- _.
Qed.

(** The read of the result queue, case by case. *)
Lemma poll_result_empty (w : World) :
  rq (ext (ticked w)) = [] -> poll_result w = Blocked (ticked w).
Proof.
  intros H. unfold poll_result, try_except, result_queue_get, bind, tick.
  simpl in *. now rewrite H.
Qed.

Lemma poll_result_item (w : World) (r : option TemoaModel) (rest : list (option TemoaModel)) :
  rq (ext (ticked w)) = r :: rest ->
  poll_result w
  = Ret r (with_trace (fun tr => tr ++ [EGet r]) (with_ext (set_rq rest) (ticked w))).
Proof.
  intros H. unfold poll_result, try_except, result_queue_get, bind, tick.
  simpl in *. now rewrite H.
Qed.

(** C1 - evaluation of the code where the claim fails: when the result
    queue is still empty once the workers have had their turn, the read of
    the round does not return 'no result yet': the call [result_queue.get()]
    blocks and the round with it, whatever the candidate.  The same read
    with [block=False] would return [None] in the same world, which is what
    the handler of [queue.Empty] expects. *)
Theorem empty_result_queue_blocks_round
  (vm vm1 : VM) (c c1 : candidate) (w w1 : World) :
  submit_work vm c
    (with_trace (fun tr => tr ++ [ELog INFO "Putting an instance in the work queue"]) w)
  = Ret (vm1, c1) w1 ->
  rq (ext (ticked w1)) = [] ->
  round vm c w = Blocked (ticked w1)
  /\ poll_result w1 = Blocked (ticked w1)
  /\ try_except (result_queue_get false)
       (fun e => match e with QueueEmpty => Some (ret None) | _ => None end) w1
     = Ret None (ticked w1).
Proof.
  intros Hs He. split; [|split].
  - unfold round, logger, emit. unfold bind at 1.
    unfold bind at 1. rewrite Hs. unfold bind.
    now rewrite (poll_result_empty w1 He).
  - exact (poll_result_empty w1 He).
  - unfold try_except, result_queue_get, bind, tick. simpl in *. now rewrite He.
Qed.

Lemma ingest_result_returns (r : TemoaModel) (vm : VM) (c : candidate) (w : World) :
  exists w',
    ingest_result r vm c w = Ret (process_results r vm, c) w'
    /\ self w' = ingested_self (self w)
    /\ ext w' = ext w
    /\ trace w' = trace w ++ ingestion_events r (solve_count (self w)).
Proof.
  unfold ingest_result, process_solve_results, bind, emit, get_self,
    modify_self, ret, ingested_self, ingestion_events. simpl.
  destruct (_ <=? _)%Z; simpl; eexists; (split; [reflexivity|]); simpl;
    repeat split; now rewrite <- !app_assoc.
Qed.

(** A round that returns has taken an item from the result queue. *)
Lemma round_returns_after_get (vm vm' : VM) (c c' : candidate) (w w' : World) :
  round vm c w = Ret (vm', c') w' ->
  exists evs, trace w' = trace w ++ evs /\ existsb is_get evs = true.
Proof.
  intros Hr. unfold round, logger in Hr.
  apply bind_ret_inv in Hr as (u & w0 & E0 & Hr). injection E0 as _ <-.
  apply bind_ret_inv in Hr as ([vm1 c1] & w1 & E1 & Hr).
  apply bind_ret_inv in Hr as (r & w2 & E2 & Hr).
  destruct (appends_submit_work vm c
              (with_trace (fun tr => tr ++ [ELog INFO "Putting an instance in the work queue"]) w))
    as (ev1 & T1 & _).
  rewrite E1 in T1. simpl in T1.
  destruct (rq (ext (ticked w1))) as [|r0 rest] eqn:Hq.
  - rewrite (poll_result_empty w1 Hq) in E2. discriminate.
  - rewrite (poll_result_item w1 r0 rest Hq) in E2. injection E2 as <- <-.
    assert (exists ev3, trace w' = (trace w1 ++ [EGet r0]) ++ ev3) as [ev3 T3].
    { destruct r0 as [r|].
      - destruct (ingest_result_returns r vm1 c1
                    (with_trace (fun tr => tr ++ [EGet (Some r)])
                       (with_ext (set_rq rest) (ticked w1))))
          as (w3 & E3 & _ & _ & T3).
        rewrite E3 in Hr. injection Hr as _ _ <-. rewrite T3. simpl. eauto.
      - injection Hr as _ _ <-. exists []. simpl. now rewrite app_nil_r. }
    exists (([ELog INFO "Putting an instance in the work queue"] ++ ev1)
              ++ [EGet r0] ++ ev3).
    split.
    + rewrite T3, T1. now rewrite <- !app_assoc.
    + rewrite !existsb_app. simpl. now rewrite orb_true_r.
Qed.

End Round.

Section Loop.
Context {X : External} {C : Collaborators}.

(** ** The loop *)

Lemma submit_work_effect (vm : VM) (c : candidate) (w : World) :
  self (final (submit_work vm c w)) = self w
  /\ exists evs, trace (final (submit_work vm c w)) = trace w ++ evs
                 /\ forallb is_transfer evs = true.
Proof.
  destruct c as [|m].
  - rewrite submit_work_waiting. simpl. split; [reflexivity|].
    exists []. now rewrite app_nil_r.
  - destruct (List.length (wq (ext (ticked w))) <? work_max w)%nat eqn:Hroom.
    + pose proof (submit_work_room vm m w Hroom) as E. simpl in E. rewrite E.
      destruct (instance_generator_next _ _) as [[c vm']|]; simpl;
        (split; [reflexivity|]).
      * exists [EPut (Some m); ENext c]. now rewrite <- app_assoc.
      * exists [EPut (Some m)]. auto.
    + rewrite (submit_work_full vm m w Hroom). simpl. split; [reflexivity|].
      exists [EPrint "work queue is full"]. auto.
Qed.

Lemma poll_result_effect (w : World) :
  self (final (poll_result w)) = self w
  /\ exists evs, trace (final (poll_result w)) = trace w ++ evs
                 /\ forallb is_transfer evs = true.
Proof.
  destruct (rq (ext (ticked w))) as [|r rest] eqn:Hq.
  - rewrite (poll_result_empty w Hq). simpl. split; [reflexivity|].
    exists []. now rewrite app_nil_r.
  - rewrite (poll_result_item w r rest Hq). simpl. split; [reflexivity|].
    exists [EGet r]. auto.
Qed.

Lemma round_unfold (vm : VM) (c : candidate) (w : World) :
  round vm c w
  = bind (submit_work vm c)
      (fun x => bind poll_result
                  (fun next_result =>
                     match next_result with
                     | Some r => ingest_result r (fst x) (snd x)
                     | None => ret (fst x, snd x)
                     end)) (logged w).
Proof.
  unfold round, logger, logged, emit. unfold bind at 1.
  unfold bind at 1 3. destruct (submit_work vm c _) as [[vm1 c1] w1| | |]; reflexivity.
Qed.

(** What a round does to the object and to the trace: either nothing is
    ingested and the object is as before, or the round returns after
    ingesting one result under the current counter. *)
Lemma round_effect (vm : VM) (c : candidate) (w : World) :
  exists evs,
    trace (final (round vm c w)) = trace w ++ evs
    /\ ((forallb is_transfer evs = true /\ self (final (round vm c w)) = self w)
        \/ (exists pre r,
              evs = pre ++ ingestion_events r (solve_count (self w))
              /\ forallb is_transfer pre = true
              /\ returned (round vm c w) = true
              /\ self (final (round vm c w)) = ingested_self (self w))).
Proof.
  rewrite round_unfold.
  destruct (submit_work_effect vm c (logged w)) as (S1 & ev1 & T1 & F1).
  simpl in S1, T1.
  match goal with |- context [bind (submit_work vm c) ?k (logged w)] =>
    destruct (bind_cases (submit_work vm c) k (logged w))
      as [([vm1 c1] & w1 & E1 & Hb) | (_ & Hb & _)]; rewrite ?Hb; clear Hb end.
  2:{ exists ([ELog INFO "Putting an instance in the work queue"] ++ ev1).
      split; [rewrite T1; now rewrite <- app_assoc|].
      left. split; [simpl; exact F1 | exact S1]. }
  rewrite E1 in S1, T1. simpl in S1, T1. simpl fst. simpl snd.
  destruct (poll_result_effect w1) as (S2 & ev2 & T2 & F2).
  match goal with |- context [bind poll_result ?k w1] =>
    destruct (bind_cases poll_result k w1)
      as [(r & w2 & E2 & Hb) | (_ & Hb & _)]; rewrite ?Hb; clear Hb end.
  2:{ exists ([ELog INFO "Putting an instance in the work queue"] ++ ev1 ++ ev2).
      split; [rewrite T2, T1; now rewrite <- !app_assoc|].
      left. split; [simpl; rewrite forallb_app, F1, F2; reflexivity
                   | now rewrite S2, S1]. }
  rewrite E2 in S2, T2. simpl in S2, T2.
  destruct r as [r|].
  - destruct (ingest_result_returns r vm1 c1 w2) as (w3 & E3 & S3 & _ & T3).
    rewrite E3. simpl.
    exists (([ELog INFO "Putting an instance in the work queue"] ++ ev1 ++ ev2)
              ++ ingestion_events r (solve_count (self w))).
    split.
    + rewrite T3, T2, T1, S2, S1. now rewrite <- !app_assoc.
    + right. eexists _, r. split; [reflexivity|]. split.
      * simpl. rewrite forallb_app, F1, F2. reflexivity.
      * split; [reflexivity|]. now rewrite S3, S2, S1.
  - simpl.
    exists ([ELog INFO "Putting an instance in the work queue"] ++ ev1 ++ ev2).
    split; [rewrite T2, T1; now rewrite <- !app_assoc|].
    left. split; [simpl; rewrite forallb_app, F1, F2; reflexivity
                 | now rewrite S2, S1].
Qed.

Lemma count_app (P : event -> bool) (l1 l2 : list event) :
  count P (l1 ++ l2) = (count P l1 + count P l2)%nat.
Proof. unfold count. now rewrite filter_app, length_app. Qed.

Lemma count_none (P Q : event -> bool) (l : list event) :
  (forall e, Q e = true -> P e = false) -> forallb Q l = true -> count P l = 0%nat.
Proof.
  intros H F. unfold count. rewrite (filter_none P l); [reflexivity|].
  apply (forallb_weaken Q); [|exact F]. intros e Qe. now rewrite (H e Qe).
Qed.

Lemma transfer_not_ingestion e : is_transfer e = true -> is_ingestion e = false.
Proof. now destruct e. Qed.

Lemma transfer_not_recorded e : is_transfer e = true -> is_recorded_iteration e = false.
Proof. now destruct e. Qed.

Lemma main_loop_unfold (fuel : nat) (vm : VM) (c : candidate) (w : World) :
  main_loop fuel vm c w
  = if negb (stop_resolving vm) && negb (internal_stop (self w)) then
      match fuel with
      | O => OutOfFuel w
      | S fuel' => bind (round vm c) (fun x => main_loop fuel' (fst x) (snd x)) w
      end
    else Ret (vm, c) w.
Proof.
  destruct fuel; simpl; unfold loop_condition, get_self, ret;
    unfold bind at 1 2;
    destruct (negb (stop_resolving vm) && negb (internal_stop (self w)));
    try reflexivity.
  unfold bind. destruct (round vm c w) as [[vm1 c1] w1| | |]; reflexivity.
Qed.

(** The loop leaves only when its condition is false. *)
Lemma main_loop_exit (fuel : nat) (vm vm' : VM) (c c' : candidate) (w w' : World) :
  main_loop fuel vm c w = Ret (vm', c') w' ->
  stop_resolving vm' = true \/ internal_stop (self w') = true.
Proof.
  revert vm c w. induction fuel as [|fuel IH]; intros vm c w H;
    rewrite main_loop_unfold in H;
    destruct (stop_resolving vm) eqn:Hs; destruct (internal_stop (self w)) eqn:Hi;
    simpl in H; try discriminate;
    try (injection H as <- _ <-; auto; fail).
  apply bind_ret_inv in H as ([vm1 c1] & w1 & _ & H). eapply IH, H.
Qed.

(** The count of ingested results against the counter and the limit: the
    loop is entered with the stop flag down. *)
Lemma main_loop_ingestions (fuel : nat) (vm : VM) (c : candidate) (w : World) :
  internal_stop (self w) = false ->
  exists evs,
    trace (final (main_loop fuel vm c w)) = trace w ++ evs
    /\ count is_recorded_iteration evs = count is_ingestion evs
    /\ iteration_limit (self (final (main_loop fuel vm c w))) = iteration_limit (self w)
    /\ solve_count (self (final (main_loop fuel vm c w)))
       = (solve_count (self w) + Z.of_nat (count is_ingestion evs))%Z
    /\ (internal_stop (self (final (main_loop fuel vm c w))) = true ->
        (count is_ingestion evs = 1%nat
         /\ (iteration_limit (self w) <= solve_count (self w) + 1)%Z)
        \/ (1 <= count is_ingestion evs)%nat
           /\ (solve_count (self w) + Z.of_nat (count is_ingestion evs)
               = iteration_limit (self w))%Z)
    /\ (internal_stop (self (final (main_loop fuel vm c w))) = false ->
        count is_ingestion evs = 0%nat
        \/ (solve_count (self w) + Z.of_nat (count is_ingestion evs)
            < iteration_limit (self w))%Z).
Proof.
  revert vm c w. induction fuel as [|fuel IH]; intros vm c w Hi;
    rewrite main_loop_unfold;
    destruct (negb (stop_resolving vm) && negb (internal_stop (self w)));
    try (exists []; simpl; rewrite app_nil_r; repeat split; auto; try lia;
         try (intros; left; reflexivity); intros; congruence).
    destruct (round_effect vm c w) as (ev1 & T1 & Hcase).
    destruct (bind_cases (round vm c)
                (fun x => main_loop fuel (fst x) (snd x)) w)
      as [([vm1 c1] & w1 & E1 & ->) | (Hnr & -> & _)].
    + rewrite E1 in T1, Hcase. simpl in T1, Hcase. simpl fst. simpl snd.
      destruct Hcase as [(F1 & S1) | (pre & r & -> & F1 & _ & S1)].
      * destruct (IH vm1 c1 w1) as (ev2 & T2 & R2 & L2 & N2 & A2 & B2);
          [now rewrite S1|].
        rewrite S1 in *.
        exists (ev1 ++ ev2). rewrite !count_app.
        rewrite (count_none is_ingestion is_transfer ev1 transfer_not_ingestion F1).
        rewrite (count_none is_recorded_iteration is_transfer ev1
                   transfer_not_recorded F1). simpl.
        split; [rewrite T2, T1; now rewrite app_assoc|]. auto.
      * assert (Hc1 : count is_ingestion
                        (pre ++ ingestion_events r (solve_count (self w))) = 1%nat).
        { rewrite count_app,
            (count_none is_ingestion is_transfer pre transfer_not_ingestion F1).
          reflexivity. }
        assert (Hr1 : count is_recorded_iteration
                        (pre ++ ingestion_events r (solve_count (self w))) = 1%nat).
        { rewrite count_app,
            (count_none is_recorded_iteration is_transfer pre
               transfer_not_recorded F1).
          reflexivity. }
        unfold ingested_self in S1.
        destruct (iteration_limit (self w) <=? solve_count (self w) + 1)%Z eqn:Hl.
        -- (* the limit is reached: the next test of the condition leaves *)
           exists (pre ++ ingestion_events r (solve_count (self w))).
           assert (Hm : main_loop fuel vm1 c1 w1 = Ret (vm1, c1) w1).
           { rewrite main_loop_unfold, S1. simpl. now rewrite andb_false_r. }
           rewrite Hm. simpl. rewrite S1, Hc1, Hr1. simpl.
           apply Z.leb_le in Hl.
           repeat split; auto; try discriminate.
        -- destruct (IH vm1 c1 w1) as (ev2 & T2 & R2 & L2 & N2 & A2 & B2);
             [now rewrite S1|].
           rewrite S1 in *. simpl in *.
           apply Z.leb_gt in Hl.
           exists ((pre ++ ingestion_events r (solve_count (self w))) ++ ev2).
           rewrite !(count_app _ (pre ++ _) ev2), Hc1, Hr1.
           split; [rewrite T2, T1; rewrite <- !app_assoc; reflexivity|].
           split; [now rewrite R2|]. split; [exact L2|].
           split; [rewrite N2; lia|]. split.
           ++ intros Hst. right. destruct (A2 Hst) as [[A A'] | [A A']]; lia.
           ++ intros Hst. right. destruct (B2 Hst) as [B | B]; lia.
    + exists ev1. split; [exact T1|].
      destruct Hcase as [(F1 & S1) | (pre & r & _ & _ & Hret & _)];
        [|rewrite Hret in Hnr; discriminate].
      rewrite S1, Hi.
      rewrite (count_none is_ingestion is_transfer ev1 transfer_not_ingestion F1).
      rewrite (count_none is_recorded_iteration is_transfer ev1
                 transfer_not_recorded F1). simpl. rewrite Z.add_0_r.
      repeat split; auto; discriminate.
Qed.

End Loop.

Section LoopClaims.
Context {X : External} {C : Collaborators}.

(** ** The iteration limit *)

(** C2 (as amended) - the counter that is compared with the iteration limit
    already counts the base solve when the loop is entered.  From a loop
    entered with the counter at 1 and the stop flag down, with limit L:
    every ingestion is recorded once; the loop never ingests more than
    max(1, L - 1) results, hence at most L when L >= 1; when the
    iteration-limit flag is set exactly max(1, L - 1) results have been
    ingested; with a generator that never declares exhaustion a loop that
    returns has set the flag; and with L = 3 that is exactly 2 results. *)
Theorem iteration_limit_counts_base_solve
  (fuel : nat) (vm : VM) (c : candidate) (w : World) :
  internal_stop (self w) = false ->
  solve_count (self w) = 1%Z ->
  exists evs,
    trace (final (main_loop fuel vm c w)) = trace w ++ evs
    /\ count is_recorded_iteration evs = count is_ingestion evs
    /\ (Z.of_nat (count is_ingestion evs) <= Z.max 1 (iteration_limit (self w) - 1))%Z
    /\ ((1 <= iteration_limit (self w))%Z ->
        (Z.of_nat (count is_ingestion evs) <= iteration_limit (self w))%Z)
    /\ (internal_stop (self (final (main_loop fuel vm c w))) = true ->
        Z.of_nat (count is_ingestion evs) = Z.max 1 (iteration_limit (self w) - 1))
    /\ ((forall v, stop_resolving v = false) ->
        returned (main_loop fuel vm c w) = true ->
        internal_stop (self (final (main_loop fuel vm c w))) = true)
    /\ (iteration_limit (self w) = 3%Z ->
        internal_stop (self (final (main_loop fuel vm c w))) = true ->
        count is_ingestion evs = 2%nat).
Proof.
  intros Hi Hc.
  destruct (main_loop_ingestions fuel vm c w Hi) as (evs & T & R & L & N & A & B).
  rewrite Hc in *.
  exists evs. split; [exact T|]. split; [exact R|].
  assert (Hmax : (Z.of_nat (count is_ingestion evs)
                  <= Z.max 1 (iteration_limit (self w) - 1))%Z).
  { destruct (internal_stop (self (final (main_loop fuel vm c w)))).
    - destruct (A eq_refl) as [[A1 A2] | [A1 A2]]; lia.
    - destruct (B eq_refl) as [B1 | B1]; lia. }
  split; [exact Hmax|]. split; [lia|]. split; [|split].
  - intros Hs. destruct (A Hs) as [[A1 A2] | [A1 A2]]; lia.
  - intros Hnever Hret.
    destruct (main_loop fuel vm c w) as [[vm' c'] w'| | |] eqn:E; try discriminate.
    destruct (main_loop_exit _ _ _ _ _ _ _ E) as [Hs | Hs]; [|exact Hs].
    rewrite Hnever in Hs. discriminate.
  - intros H3 Hs. destruct (A Hs) as [[A1 A2] | [A1 A2]]; lia.
Qed.

(** ** The wait sentinel *)

Lemma round_waiting (vm : VM) (w : World) :
  (exists evs,
     trace (final (round vm Waiting w)) = trace w ++ evs
     /\ existsb is_next evs = false /\ existsb is_put evs = false)
  /\ (forall vm' c' w', round vm Waiting w = Ret (vm', c') w' -> c' = Waiting)
  /\ (forall r rest,
        rq (ext (ticked (logged w))) = Some r :: rest ->
        exists w',
          round vm Waiting w = Ret (process_results r vm, Waiting) w'
          /\ trace w'
             = trace w
               ++ [ELog INFO "Putting an instance in the work queue"; EGet (Some r)]
               ++ ingestion_events r (solve_count (self w))).
Proof.
  rewrite round_unfold.
  rewrite (bind_of_ret _ _ _ _ _ (submit_work_waiting vm (logged w))).
  simpl fst. simpl snd.
  destruct (rq (ext (ticked (logged w)))) as [|r0 rest0] eqn:Hq.
  - unfold bind. rewrite (poll_result_empty _ Hq). simpl.
    split; [|split]; try discriminate.
    exists [ELog INFO "Putting an instance in the work queue"]. auto.
  - rewrite (bind_of_ret _ _ _ _ _ (poll_result_item _ _ _ Hq)).
    destruct r0 as [r|].
    + match goal with |- context [ingest_result r vm Waiting ?w0] =>
        destruct (ingest_result_returns r vm Waiting w0) as (w3 & E3 & _ & _ & T3)
      end.
      rewrite E3. simpl in T3. split; [|split].
      * exists ([ELog INFO "Putting an instance in the work queue"; EGet (Some r)]
                  ++ ingestion_events r (solve_count (self w))).
        simpl. rewrite T3. rewrite <- !app_assoc. auto.
      * intros vm' c' w' [= _ <- _]. reflexivity.
      * intros r' rest' [= <- _]. exists w3. split; [reflexivity|].
        rewrite T3. rewrite <- !app_assoc. reflexivity.
    + split; [|split]; try discriminate.
      * exists [ELog INFO "Putting an instance in the work queue"; EGet None].
        simpl. rewrite <- !app_assoc. auto.
      * intros vm' c' w' [= _ <- _]. reflexivity.
Qed.

(** C7 - evaluation of the code where the claim fails: once the pull has
    returned 'waiting', the loop never pulls from the generator again and
    never submits again, however many rounds follow and however many results
    arrive: a round that ingests a new result still ends with 'waiting' as
    its candidate. *)
Theorem waiting_is_never_left (fuel : nat) (vm : VM) (w : World) :
  exists evs,
    trace (final (main_loop fuel vm Waiting w)) = trace w ++ evs
    /\ existsb is_next evs = false
    /\ existsb is_put evs = false
    /\ (forall vm' c' w',
          main_loop fuel vm Waiting w = Ret (vm', c') w' -> c' = Waiting)
    /\ (forall r rest,
          rq (ext (ticked (logged w))) = Some r :: rest ->
          exists w',
            round vm Waiting w = Ret (process_results r vm, Waiting) w'
            /\ trace w'
               = trace w
                 ++ [ELog INFO "Putting an instance in the work queue"; EGet (Some r)]
                 ++ ingestion_events r (solve_count (self w))).
Proof.
  assert (H : exists evs,
            trace (final (main_loop fuel vm Waiting w)) = trace w ++ evs
            /\ existsb is_next evs = false
            /\ existsb is_put evs = false
            /\ (forall vm' c' w',
                  main_loop fuel vm Waiting w = Ret (vm', c') w' -> c' = Waiting)).
  { revert vm w. induction fuel as [|fuel IH]; intros vm w;
      rewrite main_loop_unfold;
      destruct (negb (stop_resolving vm) && negb (internal_stop (self w)));
      try (exists []; simpl; rewrite app_nil_r; repeat split; auto;
           try discriminate; intros vm' c' w' [= _ <- _]; reflexivity).
    destruct (round_waiting vm w) as ((ev1 & T1 & N1 & P1) & Hw & _).
    destruct (bind_cases (round vm Waiting)
                (fun x => main_loop fuel (fst x) (snd x)) w)
      as [([vm1 c1] & w1 & E1 & ->) | (_ & -> & Hnr)].
    - rewrite E1 in T1. simpl in T1. simpl fst. simpl snd.
      rewrite (Hw vm1 c1 w1 E1).
      destruct (IH vm1 w1) as (ev2 & T2 & N2 & P2 & Hw2).
      exists (ev1 ++ ev2). rewrite T2, T1, !existsb_app, N1, N2, P1, P2.
      rewrite app_assoc. auto.
    - exists ev1. repeat split; auto.
      intros vm' c' w' E. rewrite E in Hnr. discriminate. }
  destruct H as (evs & T & N & P & Hw).
  exists evs. repeat split; auto.
  apply (round_waiting vm w).
Qed.

End LoopClaims.

Section TimeLimit.
Context {X : External} {C : Collaborators}.
Variable g : TemoaConfig -> TemoaConfig.
Variable t : Z.
Hypothesis loader_blind : forall cfg, build_instance (g cfg) = build_instance cfg.
Hypothesis generator_blind :
  forall cfg vm, instance_generator_next (g cfg) vm = instance_generator_next cfg vm.

(** ** The time limit *)


















(** The steps before and after the loop. *)

















End TimeLimit.

Section TimeLimitClaim.
Context {X : External} {C : Collaborators}.



End TimeLimitClaim.

Section Shutdown.
Context {X : External} {C : Collaborators}.

(** ** The shutdown *)

Lemma put_loop_returns (workers : list nat) (w w' : World) :
  for_each workers (fun _ => work_queue_put None true) w = Ret tt w' ->
  trace w' = trace w ++ repeat (EPut None) (List.length workers).
Proof.
  revert w. induction workers as [|h workers IH]; intros w H; simpl in *.
  - injection H as <-. now rewrite app_nil_r.
  - apply bind_ret_inv in H as (u & w1 & E & H).
    rewrite (IH _ H).
    unfold work_queue_put, bind, tick in E. simpl in E.
    destruct (_ <? _)%nat; [|discriminate].
    injection E as _ <-. simpl. now rewrite <- app_assoc.
Qed.

Lemma report_loop_returns (workers : list nat) (w : World) :
  exists w' evs,
    for_each workers (fun h => a <- is_alive h ;; emit (EPrintAlive h a)) w = Ret tt w'
    /\ ext w' = ext w
    /\ trace w' = trace w ++ evs
    /\ forallb is_report evs = true.
Proof.
  revert w. induction workers as [|h workers IH]; intros w; simpl.
  - exists w, []. rewrite app_nil_r. auto.
  - set (w0 := with_trace
                 (fun tr => tr ++ [EPrintAlive h (nth h (alive (ext w)) false)]) w).
    assert (E0 : (a <- is_alive h ;; emit (EPrintAlive h a)) w = Ret tt w0)
      by reflexivity.
    rewrite (bind_of_ret _ _ _ _ _ E0).
    destruct (IH w0) as (w' & evs & E & Hx & T & F).
    exists w', (EPrintAlive h (nth h (alive (ext w)) false) :: evs).
    rewrite E, T, Hx. simpl. rewrite <- app_assoc. auto.
Qed.

Lemma dead_stays_dead (h : nat) (w : World) :
  no_revival ->
  nth h (alive (ext w)) false = false ->
  nth h (alive (ext (ticked w))) false = false.
Proof.
  intros Hn Hd. simpl.
  destruct (nth h (alive (env (ticks w) (ext w))) false) eqn:E; [|reflexivity].
  apply Hn in E. congruence.
Qed.

Lemma join_loop_returns (workers : list nat) (w w' : World) :
  no_revival ->
  for_each workers (fun h => join h ;; print "worker wrapped up...") w = Ret tt w' ->
  trace w' = trace w ++ join_events workers
  /\ (forall h, In h workers -> nth h (alive (ext w')) false = false)
  /\ (forall h, nth h (alive (ext w)) false = false ->
                nth h (alive (ext w')) false = false).
Proof.
  intros Hn. revert w. induction workers as [|h workers IH]; intros w H; simpl in *.
  - injection H as <-. rewrite app_nil_r. repeat split; auto. contradiction.
  - apply bind_ret_inv in H as (u & w1 & E & H).
    destruct (IH _ H) as (T & D & K).
    unfold join, print, bind, tick, emit in E. simpl in E.
    destruct (nth h (alive (env (ticks w) (ext w))) false) eqn:Ea; [discriminate|].
    injection E as _ <-. simpl in *.
    split; [rewrite T; simpl; now rewrite <- !app_assoc|]. split.
    + intros h' [<- | Hin]; [apply K; exact Ea | apply D; exact Hin].
    + intros h' Hd. apply K. apply (dead_stays_dead h' w Hn Hd).
Qed.

Lemma shutdown_returns (workers : list nat) (w w' : World) :
  no_revival ->
  shutdown workers w = Ret tt w' ->
  exists evs2 evs4,
    trace w'
    = trace w
      ++ ([EPrint "shutting it down"] ++ repeat (EPut None) (List.length workers))
      ++ (evs2 ++ join_events workers ++ evs4) ++ close_events
    /\ forallb is_report evs2 = true
    /\ forallb is_report evs4 = true
    /\ forall h, In h workers -> nth h (alive (ext w')) false = false.
Proof.
  intros Hn H. unfold shutdown, print in H.
  apply bind_ret_inv in H as (u0 & w0 & E0 & H). injection E0 as _ <-.
  apply bind_ret_inv in H as (u1 & w1 & E1 & H). destruct u1.
  apply put_loop_returns in E1.
  destruct (report_loop_returns workers w1) as (w2 & evs2 & E2 & X2 & T2 & F2).
  apply bind_ret_inv in H as (u2 & w2' & E2' & H).
  rewrite E2 in E2'. injection E2' as _ <-.
  apply bind_ret_inv in H as (u3 & w3 & E3 & H). destruct u3.
  apply (join_loop_returns workers w2 w3 Hn) in E3 as (T3 & D3 & _).
  destruct (report_loop_returns workers w3) as (w4 & evs4 & E4 & X4 & T4 & F4).
  apply bind_ret_inv in H as (u4 & w4' & E4' & H).
  rewrite E4 in E4'. injection E4' as _ <-.
  unfold queue_close, bind, emit in H. simpl in H. injection H as <-. simpl.
  exists evs2, evs4. split; [|split; [exact F2 | split; [exact F4|]]].
  - rewrite T4, T3, T2, E1. simpl. rewrite <- !app_assoc. reflexivity.
  - intros h Hin. rewrite X4. apply D3, Hin.
Qed.

Lemma forallb_repeat (P : event -> bool) (e : event) (n : nat) :
  P e = true -> forallb P (repeat e n) = true.
Proof. intros H. induction n; simpl; [reflexivity | now rewrite H]. Qed.

Lemma forallb_join_events (P : event -> bool) (workers : list nat) :
  (forall h, P (EJoin h) = true) -> (forall s, P (EPrint s) = true) ->
  forallb P (join_events workers) = true.
Proof.
  intros Hj Hp. induction workers as [|h ws IH]; simpl; [reflexivity|].
  now rewrite Hj, Hp.
Qed.

Lemma filter_repeat (P : event -> bool) (e : event) (n : nat) :
  P e = true -> filter P (repeat e n) = repeat e n.
Proof. intros H. induction n; simpl; [reflexivity | now rewrite H, IHn]. Qed.

Lemma filter_join_events (workers : list nat) :
  filter is_join (join_events workers) = map EJoin workers.
Proof. induction workers as [|h ws IH]; simpl; [reflexivity | now rewrite IH]. Qed.

Lemma report_not (P : event -> bool) (l : list event) :
  (forall e, is_report e = true -> P e = false) ->
  forallb is_report l = true -> forallb (fun e => negb (P e)) l = true.
Proof.
  intros H. apply forallb_weaken. intros e He. now rewrite (H e He).
Qed.

(** C4 - when the shutdown returns, with processes that do not come back to
    life: the only items put on the work queue are sentinels, one per
    worker; every worker has been joined, in order; the three queues are
    closed, the log queue first; no sentinel is sent after a join has
    returned and no join happens after a queue has been closed; and no
    worker of the pool is alive. *)
Theorem shutdown_sentinels_joins_then_closes
  (workers : list nat) (w w' : World) :
  no_revival ->
  shutdown workers w = Ret tt w' ->
  exists evs,
    trace w' = trace w ++ evs
    /\ filter is_put evs = repeat (EPut None) (List.length workers)
    /\ count is_sentinel_put evs = List.length workers
    /\ filter is_join evs = map EJoin workers
    /\ filter is_close evs = [EClose LogQ; EClose WorkQ; EClose ResultQ]
    /\ never_after is_sentinel_put is_join evs = true
    /\ never_after is_join is_close evs = true
    /\ forall h, In h workers -> nth h (alive (ext w')) false = false.
Proof.
  intros Hn H.
  destruct (shutdown_returns workers w w' Hn H) as (evs2 & evs4 & T & F2 & F4 & D).
  eexists. split; [exact T|].
  assert (Hput : forall P, (forall e, is_report e = true -> P e = false) ->
            P (EPut None) = true ->
            (forall h, P (EJoin h) = false) -> (forall q, P (EClose q) = false) ->
            filter P
              (([EPrint "shutting it down"] ++ repeat (EPut None) (List.length workers))
               ++ (evs2 ++ join_events workers ++ evs4) ++ close_events)
            = repeat (EPut None) (List.length workers)).
  { intros P Hr Hp Hj Hc.
    rewrite !filter_app.
    rewrite (filter_none P evs2) by (apply report_not; auto).
    rewrite (filter_none P evs4) by (apply report_not; auto).
    rewrite (filter_none P (join_events workers))
      by (apply forallb_join_events; intros; [now rewrite Hj | now rewrite Hr]).
    simpl. rewrite (Hr (EPrint "shutting it down") eq_refl), !Hc, !Hr by reflexivity.
    simpl. rewrite app_nil_r. now apply filter_repeat. }
  split; [apply Hput; auto; now intros [] |].
  split.
  { unfold count. rewrite Hput; auto; [apply repeat_length | now intros []]. }
  split.
  { rewrite !filter_app.
    rewrite (filter_none is_join evs2) by (apply report_not; auto; now intros []).
    rewrite (filter_none is_join evs4) by (apply report_not; auto; now intros []).
    rewrite (filter_none is_join (repeat (EPut None) (List.length workers)))
      by (now apply forallb_repeat).
    rewrite filter_join_events. simpl. now rewrite !app_nil_r. }
  split.
  { rewrite !filter_app.
    rewrite (filter_none is_close evs2) by (apply report_not; auto; now intros []).
    rewrite (filter_none is_close evs4) by (apply report_not; auto; now intros []).
    rewrite (filter_none is_close (repeat (EPut None) (List.length workers)))
      by (now apply forallb_repeat).
    rewrite (filter_none is_close (join_events workers))
      by (now apply forallb_join_events).
    reflexivity. }
  split.
  { apply never_after_app.
    - simpl. now apply forallb_repeat.
    - rewrite !forallb_app.
      rewrite (report_not is_sentinel_put evs2) by (auto; now intros []).
      rewrite (report_not is_sentinel_put evs4) by (auto; now intros []).
      rewrite forallb_join_events by reflexivity. reflexivity. }
  split; [|exact D].
  rewrite app_assoc. apply never_after_app; [|reflexivity].
  rewrite !forallb_app.
  rewrite (report_not is_close evs2) by (auto; now intros []).
  rewrite (report_not is_close evs4) by (auto; now intros []).
  rewrite forallb_join_events by reflexivity.
  simpl. now rewrite forallb_repeat.
Qed.

End Shutdown.

Section LoopEntry.
Context {X : External} {C : Collaborators}.

(** X15 - the loop is entered with the base solve counted: for a configuration
    that the constructor accepts with a solver and worker options, a base
    instance whose objective has a value once solved, and a generator that
    yields a first candidate, [start] reaches the loop with the counter at
    1 and the stop flag down. *)
Lemma loop_entered_with_base_solve_counted
  (cfg : TemoaConfig) (fuel : nat) (s : MgaSequencer) (tr : list event)
  (o : Solver) (opts : SolverOptions) (e : Expr) (v : float) (c : candidate)
  (vm1 : VM) :
  init cfg [] = (inr s, tr) ->
  opt s = Some o ->
  options s = Some opts ->
  TotalCost (build_instance (config s)) = Some e ->
  pyo_value e (data (solved_instance o (build_instance (config s)))) = Some v ->
  instance_generator_next (config s)
    (get_manager (mga_axis s) (relaxed_instance s o v) (mga_weighting s) (con s)
       v (cost_epsilon s)) = Some (c, vm1) ->
  exists workers w2,
    start fuel (initial_world s tr)
    = (main_loop fuel vm1 c ;; shutdown workers ;; emit EFinalizeTracker) w2
    /\ solve_count (self w2) = 1%Z
    /\ internal_stop (self w2) = false
    /\ iteration_limit (self w2) = get_or (mi_iteration_limit (mga_inputs cfg)) 20%Z.
Proof.
  intros Hi Ho Hopts He Hv Hn.
  destruct (init_attributes _ _ _ _ Hi)
    as (Hoptions & Hopt & Hstop & Hcount & Hlimit & _).
  assert (Hlegacy : exists name gopts, o = SolverFactory name gopts).
  { rewrite Hopts in Hoptions. rewrite Ho in Hopt.
    destruct (solver_name cfg =? "appsi_highs"); [discriminate|].
    destruct (solver_name cfg =? "gurobi"); [injection Hopt as ->; eauto|].
    destruct (solver_name cfg =? "cbc"); [injection Hopt as ->; eauto|].
    discriminate. }
  destruct Hlegacy as (name & gopts & ->).
  destruct (start_reaches_pool fuel (initial_world s tr) name gopts e v Ho He Hv)
    as (w1 & E & _ & S).
  simpl in E, S.
  assert (Hopts' : options (self w1) = Some opts) by (now rewrite S).
  assert (Hn' : instance_generator_next (config (self w1))
                  (get_manager (mga_axis s)
                     (relaxed_instance s (SolverFactory name gopts) v)
                     (mga_weighting s) (con s) v (cost_epsilon s)) = Some (c, vm1))
    by (now rewrite S).
  destruct (run_pool_reaches_loop fuel _ vm1 c w1 opts Hopts' Hn')
    as (ws & w2 & E2 & S2 & _).
  exists ws, w2. rewrite E, E2, S2, S. simpl. rewrite Hcount, Hstop, Hlimit.
  repeat split; reflexivity.
Qed.

End LoopEntry.

(** * Closed instances *)

Section Instances.
#[local] Existing Instance toy_types.

(** The constructor does build [toy_self]. *)
Example init_builds_toy_self :
  fst (init (toy_config "temoa.sqlite" "cbc" (Some 3%Z)) []) = inr (toy_self 3).
Proof. vm_compute. reflexivity. Qed.

Lemma kill_one_no_revival (l : list bool) (h : nat) :
  nth h (kill_one l) false = true -> nth h l false = true.
Proof.
  revert h. induction l as [|[|] l IH]; intros h; simpl; [auto| |].
  - destruct h; [discriminate | auto].
  - destruct h; [auto | apply IH].
Qed.

Lemma pool_serve_no_revival (items : list (option TemoaModel)) (e : Ext) (h : nat) :
  nth h (alive (pool_serve items e)) false = true -> nth h (alive e) false = true.
Proof.
  revert e. induction items as [|[m|] items IH]; intros e H; simpl in *.
  - exact H.
  - apply (IH _ H).
  - apply kill_one_no_revival. apply (IH _ H).
Qed.

Lemma pool_env_no_revival waits dt objective status :
  @no_revival toy_types (toy_collab waits (pool_env dt) objective status).
Proof.
  intros t e h H. simpl in H. unfold pool_env in H. simpl in H.
  apply pool_serve_no_revival in H. exact H.
Qed.

(** With the pool of the contract, the shutdown does return: every put finds
    room once the workers have taken what was queued, and when there are at
    least as many sentinels as running workers every join finds its worker
    terminated. *)
Lemma alive_count_kill_one (l : list bool) :
  alive_count (kill_one l) = pred (alive_count l).
Proof.
  unfold alive_count. induction l as [|[|] l IH]; simpl; [reflexivity| |exact IH].
  reflexivity.
Qed.

Lemma pool_serve_effect (items : list (option TemoaModel)) (e : Ext) :
  wq (pool_serve items e) = wq e
  /\ alive_count (alive (pool_serve items e))
     = (alive_count (alive e) - sentinels items)%nat.
Proof.
  revert e. induction items as [|[m|] items IH]; intros e; simpl.
  - split; [reflexivity | unfold sentinels; simpl; lia].
  - destruct (IH (set_rq (rq e ++ [Some m]) e)) as [W A]. rewrite W, A.
    split; reflexivity.
  - destruct (IH (set_alive (kill_one (alive e)) e)) as [W A]. rewrite W, A.
    simpl. rewrite alive_count_kill_one. unfold sentinels. simpl.
    split; [reflexivity | lia].
Qed.

Lemma none_alive (l : list bool) (h : nat) :
  alive_count l = 0%nat -> nth h l false = false.
Proof.
  unfold alive_count. revert h. induction l as [|[|] l IH]; intros h H; simpl in *.
  - now destruct h.
  - discriminate.
  - destruct h; [reflexivity | apply IH, H].
Qed.

Section ContractPool.
Variables (waits : list nat) (dt : Z) (objective : float) (status : TerminationCondition).
Let pool : Collaborators := toy_collab waits (pool_env dt) objective status.

Lemma ticked_pool (w : World) :
  wq (ext (ticked (C := pool) w)) = []
  /\ alive_count (alive (ext (ticked (C := pool) w)))
     = (alive_count (alive (ext w)) - sentinels (wq (ext w)))%nat.
Proof.
  simpl. unfold pool_env. simpl.
  destruct (pool_serve_effect (wq (ext w)) (set_wq [] (ext w))) as [W A].
  rewrite W, A. split; reflexivity.
Qed.

Lemma put_loop_returns_with_pool (workers : list nat) (w : World) :
  (1 <= work_max w)%nat ->
  exists w',
    for_each workers (fun _ => work_queue_put (C := pool) None true) w = Ret tt w'
    /\ work_max w' = work_max w
    /\ (alive_count (alive (ext w')) - sentinels (wq (ext w'))
        <= alive_count (alive (ext w)) - sentinels (wq (ext w)) - List.length workers)%nat.
Proof.
  revert w. induction workers as [|h workers IH]; intros w Hmax; simpl.
  - exists w. repeat split. lia.
  - destruct (ticked_pool w) as [W A].
    set (w1 := with_trace (fun tr => tr ++ [EPut None])
                 (with_ext (fun e => set_wq (wq e ++ [None]) e) (ticked (C := pool) w))).
    assert (E : work_queue_put (C := pool) None true w = Ret tt w1).
    { unfold work_queue_put, bind, tick. fold (ticked (C := pool) w).
      rewrite W. simpl. destruct (work_max w); [lia | reflexivity]. }
    rewrite (bind_of_ret _ _ _ _ _ E).
    destruct (IH w1) as (w' & E' & M' & P'); [exact Hmax|].
    exists w'. split; [exact E'|]. split; [exact M'|].
    assert (Hw1 : (alive_count (alive (ext w1)) - sentinels (wq (ext w1))
                   = alive_count (alive (ext w)) - sentinels (wq (ext w)) - 1)%nat).
    { assert (Ha : alive (ext w1) = alive (ext (ticked (C := pool) w)))
        by reflexivity.
      assert (Hq : wq (ext w1) = wq (ext (ticked (C := pool) w)) ++ [None])
        by reflexivity.
      rewrite Ha, Hq, A, W. reflexivity. }
    lia.
Qed.

Lemma join_loop_returns_with_pool (workers : list nat) (w : World) :
  (alive_count (alive (ext w)) - sentinels (wq (ext w)) = 0)%nat ->
  exists w',
    for_each workers
      (fun h => join (C := pool) h ;; print "worker wrapped up...") w = Ret tt w'.
Proof.
  revert w. induction workers as [|h workers IH]; intros w Hp; simpl.
  - exists w. reflexivity.
  - destruct (ticked_pool w) as [W A]. rewrite Hp in A.
    set (w1 := with_trace (fun tr => tr ++ [EPrint "worker wrapped up..."])
                 (with_trace (fun tr => tr ++ [EJoin h]) (ticked (C := pool) w))).
    assert (E : (join (C := pool) h ;; print "worker wrapped up...") w = Ret tt w1).
    { unfold join, print, bind, tick, emit. fold (ticked (C := pool) w).
      now rewrite (none_alive _ h A). }
    rewrite (bind_of_ret _ _ _ _ _ E).
    apply IH.
    assert (Ha : alive (ext w1) = alive (ext (ticked (C := pool) w))) by reflexivity.
    rewrite Ha, A. reflexivity.
Qed.

Lemma shutdown_returns_with_pool (workers : list nat) (w : World) :
  (1 <= work_max w)%nat ->
  (alive_count (alive (ext w)) - sentinels (wq (ext w)) <= List.length workers)%nat ->
  returned (shutdown (C := pool) workers w) = true.
Proof.
  intros Hmax Hp. unfold shutdown, print.
  set (w0 := with_trace (fun tr => tr ++ [EPrint "shutting it down"]) w).
  assert (E0 : emit (EPrint "shutting it down") w = Ret tt w0) by reflexivity.
  rewrite (bind_of_ret _ _ _ _ _ E0).
  destruct (put_loop_returns_with_pool workers w0 Hmax) as (w1 & E1 & _ & P1).
  rewrite (bind_of_ret _ _ _ _ _ E1).
  destruct (report_loop_returns workers w1) as (w2 & ev2 & E2 & X2 & _).
  rewrite (bind_of_ret _ _ _ _ _ E2).
  destruct (join_loop_returns_with_pool workers w2) as (w3 & E3).
  { rewrite X2. unfold w0 in P1. simpl in P1. lia. }
  rewrite (bind_of_ret _ _ _ _ _ E3).
  destruct (report_loop_returns workers w3) as (w4 & ev4 & E4 & _).
  rewrite (bind_of_ret _ _ _ _ _ E4).
  reflexivity.
Qed.

End ContractPool.

(** C8, an instance: another output database. *)
Lemma init_rejects_mismatched_databases_witness :
  (input_database (toy_config "other.sqlite" "cbc" None)
   =? output_database (toy_config "other.sqlite" "cbc" None)) = false
  /\ run (C := toy_collab [] idle_env 1000 optimal)
       (toy_config "other.sqlite" "cbc" None) 10
     = ConstructorRaised
         (NotImplementedError "MGA assumes input and output databases are same") [].
Proof.
  split; [(vm_compute; reflexivity)|].
  apply (init_rejects_mismatched_databases (C := toy_collab [] idle_env 1000 optimal)
           (toy_config "other.sqlite" "cbc" None) [] 10).
  (vm_compute; reflexivity).
Defined.

(** C10, an instance: the solver 'appsi_highs'. *)
Lemma options_unset_outside_gurobi_cbc_witness :
  (solver_name (toy_config "temoa.sqlite" "appsi_highs" None) =? "gurobi") = false
  /\ (solver_name (toy_config "temoa.sqlite" "appsi_highs" None) =? "cbc") = false
  /\ exists s tr,
       init (toy_config "temoa.sqlite" "appsi_highs" None) [] = (inr s, tr)
       /\ options s = None
       /\ exists w',
            start (C := toy_collab [] idle_env 1000 optimal) 10 (initial_world s tr)
            = Raise (AttributeError "solver") w'
            /\ trace w' = tr ++ unread_solve_events (C := toy_collab [] idle_env 1000 optimal) s.
Proof.
  split; [(vm_compute; reflexivity)|]. split; [(vm_compute; reflexivity)|].
  destruct (options_unset_outside_gurobi_cbc
              (C := toy_collab [] idle_env 1000 optimal)
              (toy_config "temoa.sqlite" "appsi_highs" None) 10)
    as (s & tr & Hi & Ho & _ & _ & _ & Ha & _); [(vm_compute; reflexivity) | (vm_compute; reflexivity) | (vm_compute; reflexivity) |].
  destruct Ha as (_ & w' & E & T & _); [(vm_compute; reflexivity)|].
  exists s, tr. split; [exact Hi|]. split; [exact Ho|].
  exists w'. split; [exact E | exact T].
Defined.

(** C10, the claim as stated fails: no run fails when the keyword
    arguments of the workers are built.  With 'appsi_highs' the run ends
    in an attribute error on [solver], not on [options]: the base solve
    has run, no result is written and no queue is made.  With a name
    outside the three it ends on [opt], before any solve. *)
Lemma highs_run_fails_before_keyword_arguments :
  run_raised (run (C := toy_collab [] (pool_env 1) 1000 optimal)
                (toy_config "temoa.sqlite" "appsi_highs" None) 10)
  = Some (AttributeError "solver")
  /\ existsb is_solve
       (run_trace (run (C := toy_collab [] (pool_env 1) 1000 optimal)
                     (toy_config "temoa.sqlite" "appsi_highs" None) 10)) = true
  /\ existsb is_write_results
       (run_trace (run (C := toy_collab [] (pool_env 1) 1000 optimal)
                     (toy_config "temoa.sqlite" "appsi_highs" None) 10)) = false
  /\ existsb is_new_queue
       (run_trace (run (C := toy_collab [] (pool_env 1) 1000 optimal)
                     (toy_config "temoa.sqlite" "appsi_highs" None) 10)) = false
  /\ run_raised (run (C := toy_collab [] (pool_env 1) 1000 optimal)
                   (toy_config "temoa.sqlite" "glpk" None) 10)
     = Some (AttributeError "opt")
  /\ existsb is_new_queue
       (run_trace (run (C := toy_collab [] (pool_env 1) 1000 optimal)
                     (toy_config "temoa.sqlite" "glpk" None) 10)) = false
  /\ AttributeError "solver" <> AttributeError "options"
  /\ AttributeError "opt" <> AttributeError "options".
Proof.
  repeat (split; [(vm_compute; reflexivity)|]). split; discriminate.
Qed.

(** C9, an instance: a base solve that ends infeasible on a model whose
    objective still has a value. *)
Lemma base_result_recorded_whatever_status_witness :
  opt (self (fresh_world 3)) = Some (SolverFactory "cbc" None)
  /\ exists w1 vm,
       start (C := toy_collab [] (pool_env 1) 1000 infeasible) 10 (fresh_world 3)
       = run_pool (C := toy_collab [] (pool_env 1) 1000 infeasible) 10 vm w1
       /\ existsb (is_status_log infeasible) (trace w1) = true
       /\ existsb is_write_results (trace w1) = true.
Proof.
  split; [(vm_compute; reflexivity)|].
  destruct (base_result_recorded_whatever_status
              (C := toy_collab [] (pool_env 1) 1000 infeasible)
              10 (fresh_world 3) (SolverFactory "cbc" None) "TotalCost" infeasible)
    as (Hlegacy & _); [(vm_compute; reflexivity) | (vm_compute; reflexivity) | (vm_compute; reflexivity) |].
  destruct (Hlegacy "cbc" None eq_refl) as (_ & Hsome & _).
  destruct (Hsome 1000%float) as (w1 & vm & E & T & _); [(vm_compute; reflexivity)|].
  exists w1, vm. split; [exact E|]. rewrite T. split; (vm_compute; reflexivity).
Defined.

(** C9, the claim as stated fails: a base solve that ends infeasible and
    loads no solution is logged and recorded, and then the run ends in
    [ValueError] on the value of the objective, with no cost relaxation, no
    queue and no pull from the generator; and with 'appsi_highs' the
    result of the base solve is not recorded at all. *)
Lemma infeasible_base_solve_stops_before_relaxation :
  run_raised (run (C := infeasible_collab (pool_env 1))
                (toy_config "temoa.sqlite" "cbc" (Some 3%Z)) 10)
  = Some ValueError
  /\ existsb (is_status_log infeasible)
       (run_trace (run (C := infeasible_collab (pool_env 1))
                     (toy_config "temoa.sqlite" "cbc" (Some 3%Z)) 10)) = true
  /\ existsb is_write_results
       (run_trace (run (C := infeasible_collab (pool_env 1))
                     (toy_config "temoa.sqlite" "cbc" (Some 3%Z)) 10)) = true
  /\ existsb is_model_edit
       (run_trace (run (C := infeasible_collab (pool_env 1))
                     (toy_config "temoa.sqlite" "cbc" (Some 3%Z)) 10)) = false
  /\ existsb is_new_queue
       (run_trace (run (C := infeasible_collab (pool_env 1))
                     (toy_config "temoa.sqlite" "cbc" (Some 3%Z)) 10)) = false
  /\ existsb is_next
       (run_trace (run (C := infeasible_collab (pool_env 1))
                     (toy_config "temoa.sqlite" "cbc" (Some 3%Z)) 10)) = false
  /\ run_raised (run (C := toy_collab [] (pool_env 1) 1000 optimal)
                   (toy_config "temoa.sqlite" "appsi_highs" (Some 3%Z)) 10)
     = Some (AttributeError "solver")
  /\ existsb is_write_results
       (run_trace (run (C := toy_collab [] (pool_env 1) 1000 optimal)
                     (toy_config "temoa.sqlite" "appsi_highs" (Some 3%Z)) 10)) = false.
Proof.
  repeat (split; [(vm_compute; reflexivity)|]). vm_compute. reflexivity.
Qed.



(** C4, an instance: six workers that follow the contract. *)
Lemma shutdown_sentinels_joins_then_closes_witness :
  shutdown (C := toy_collab [] (pool_env 1) 1000 optimal) [0; 1; 2; 3; 4; 5]%nat
    (loop_world 3 0 [])
  = Ret tt (final (shutdown (C := toy_collab [] (pool_env 1) 1000 optimal)
                     [0; 1; 2; 3; 4; 5]%nat (loop_world 3 0 [])))
  /\ alive (ext (final (shutdown (C := toy_collab [] (pool_env 1) 1000 optimal)
                          [0; 1; 2; 3; 4; 5]%nat (loop_world 3 0 []))))
     = repeat false 6
  /\ forall h, In h [0; 1; 2; 3; 4; 5]%nat ->
       nth h (alive (ext (final (shutdown (C := toy_collab [] (pool_env 1) 1000 optimal)
                                   [0; 1; 2; 3; 4; 5]%nat (loop_world 3 0 [])))))
         false = false.
Proof.
  split; [(vm_compute; reflexivity)|]. split; [(vm_compute; reflexivity)|].
  destruct (shutdown_sentinels_joins_then_closes
              (C := toy_collab [] (pool_env 1) 1000 optimal)
              [0; 1; 2; 3; 4; 5]%nat (loop_world 3 0 [])
              (final (shutdown (C := toy_collab [] (pool_env 1) 1000 optimal)
                        [0; 1; 2; 3; 4; 5]%nat (loop_world 3 0 []))))
    as (evs & _ & _ & _ & _ & _ & _ & _ & D);
    [apply pool_env_no_revival | (vm_compute; reflexivity) | exact D].
Defined.

(** C2, an instance: limit 3 at the head of the loop. *)
Lemma iteration_limit_counts_base_solve_witness :
  internal_stop (self (loop_world 3 0 [])) = false
  /\ solve_count (self (loop_world 3 0 [])) = 1%Z
  /\ exists evs,
       trace (final (main_loop (C := toy_collab [] (pool_env 1) 1000 optimal) 10
                       (0, 0)%nat (Instance (toy_model 1)) (loop_world 3 0 [])))
       = evs
       /\ (Z.of_nat (count is_ingestion evs) <= 2)%Z.
Proof.
  split; [(vm_compute; reflexivity)|]. split; [(vm_compute; reflexivity)|].
  destruct (iteration_limit_counts_base_solve
              (C := toy_collab [] (pool_env 1) 1000 optimal) 10
              (0, 0)%nat (Instance (toy_model 1)) (loop_world 3 0 []))
    as (evs & T & _ & Hmax & _); [(vm_compute; reflexivity) | (vm_compute; reflexivity) |].
  exists evs. split; [exact T | exact Hmax].
Defined.

(** C2, the claim as stated fails: with limit 3 and a generator that never
    declares exhaustion, the run returns after recording exactly two
    iterations after the base solve, numbered 1 and 2, not three; and with
    limit 0 one result is ingested before the flag is set. *)
Lemma limit_three_records_two_iterations :
  run_returned (run (C := toy_collab [] (pool_env 1) 1000 optimal)
                  (toy_config "temoa.sqlite" "cbc" (Some 3%Z)) 10) = true
  /\ recorded_iterations
       (run_trace (run (C := toy_collab [] (pool_env 1) 1000 optimal)
                     (toy_config "temoa.sqlite" "cbc" (Some 3%Z)) 10))
     = [1%Z; 2%Z]
  /\ count is_ingestion
       (run_trace (run (C := toy_collab [] (pool_env 1) 1000 optimal)
                     (toy_config "temoa.sqlite" "cbc" (Some 3%Z)) 10))
     <> 3%nat
  /\ count is_ingestion
       (run_trace (run (C := toy_collab [] (pool_env 1) 1000 optimal)
                     (toy_config "temoa.sqlite" "cbc" (Some 0%Z)) 10))
     = 1%nat.
Proof.
  split; [(vm_compute; reflexivity)|]. split; [(vm_compute; reflexivity)|]. split; [|(vm_compute; reflexivity)].
  vm_compute. discriminate.
Qed.


(** C1, an instance: no result in the queue and none on the way. *)
Lemma empty_result_queue_blocks_round_witness :
  rq (ext (ticked (C := toy_collab [] idle_env 1000 optimal)
             (logged (loop_world 3 0 [])))) = []
  /\ is_blocked (round (C := toy_collab [] idle_env 1000 optimal) (0, 0)%nat Waiting
                   (loop_world 3 0 [])) = true.
Proof.
  split; [(vm_compute; reflexivity)|].
  destruct (empty_result_queue_blocks_round
              (C := toy_collab [] idle_env 1000 optimal)
              (0, 0)%nat (0, 0)%nat Waiting Waiting (loop_world 3 0 [])
              (logged (loop_world 3 0 []))) as (E & _);
    [(vm_compute; reflexivity) | (vm_compute; reflexivity) |].
  rewrite E. (vm_compute; reflexivity).
Defined.

(** C7, the failing run: the generator answers 'waiting' at its second
    pull and would yield models again afterwards.  The first result is
    ingested after that pull, yet the generator is never pulled a third
    time, nothing more is submitted, and the run ends blocked in the read
    of the result queue. *)
Example waiting_run_never_resumes :
  run_returned (run (C := toy_collab [1%nat] (pool_env 1) 1000 optimal)
                  (toy_config "temoa.sqlite" "cbc" (Some 5%Z)) 10) = false
  /\ filter (fun e => is_next e || is_ingestion e)
       (run_trace (run (C := toy_collab [1%nat] (pool_env 1) 1000 optimal)
                     (toy_config "temoa.sqlite" "cbc" (Some 5%Z)) 10))
     = [ENext (Instance (toy_model 1)); ENext Waiting; EProcessResults (toy_model 1)]
  /\ count is_put
       (run_trace (run (C := toy_collab [1%nat] (pool_env 1) 1000 optimal)
                     (toy_config "temoa.sqlite" "cbc" (Some 5%Z)) 10))
     = 1%nat.
Proof. split; [(vm_compute; reflexivity)|]. split; (vm_compute; reflexivity). Qed.

End Instances.

(** * More of the code *)

Section ConstructorMore.
Context {X : External} {C : Collaborators}.

(** ** More on the constructor *)

(** X1 - on success the constructor stores the configuration with the three
    auxiliary outputs (LP file, duals, spreadsheet) switched off, whatever
    they were, and every other entry as given; it logs one INFO line for
    each output that was on, besides its closing INFO line. *)
Theorem init_disables_auxiliary_outputs
  (cfg : TemoaConfig) (tr0 tr : list event) (s : MgaSequencer) :
  init cfg tr0 = (inr s, tr) ->
  save_lp_file (config s) = false
  /\ save_duals (config s) = false
  /\ save_excel (config s) = false
  /\ input_database (config s) = input_database cfg
  /\ output_database (config s) = output_database cfg
  /\ source_trace (config s) = source_trace cfg
  /\ solver_name (config s) = solver_name cfg
  /\ mga_inputs (config s) = mga_inputs cfg
  /\ scenario (config s) = scenario cfg
  /\ silent (config s) = silent cfg
  /\ exists evs,
       tr = tr0 ++ evs
       /\ count is_info_log evs
          = (Nat.b2n (save_lp_file cfg) + Nat.b2n (save_duals cfg)
             + Nat.b2n (save_excel cfg) + 1)%nat.
Proof.
  unfold init, disable_flag. destruct (negb _); [discriminate|]. simpl.
  destruct (if solver_name cfg =? "appsi_highs" then _ else _) as [[o so] os].
  destruct (source_trace cfg), (save_lp_file cfg), (save_duals cfg),
    (save_excel cfg), (mi_axis (mga_inputs cfg)),
    (mi_weighting (mga_inputs cfg)); simpl;
    intros H; inversion H; subst; clear H; simpl;
    repeat (split; [reflexivity|]);
    rewrite <- ?app_assoc; simpl; eexists; (split; [reflexivity | reflexivity]).
Qed.

(** X2 - the constructor takes the axis, the weighting, the iteration limit,
    the time limit and the cost relaxation from the MGA inputs when they are
    there and falls back to activity by technology category, hull expansion,
    20, 12 and 0.05 when they are not; it warns once for a defaulted axis,
    once for a defaulted weighting and once when source tracing is off, and
    at no other time. *)
Theorem init_defaults_and_warnings
  (cfg : TemoaConfig) (tr0 tr : list event) (s : MgaSequencer) :
  init cfg tr0 = (inr s, tr) ->
  mga_axis s = get_or (mi_axis (mga_inputs cfg)) TECH_CATEGORY_ACTIVITY
  /\ mga_weighting s = get_or (mi_weighting (mga_inputs cfg)) HULL_EXPANSION
  /\ iteration_limit s = get_or (mi_iteration_limit (mga_inputs cfg)) 20%Z
  /\ time_limit_hrs s = get_or (mi_time_limit_hrs (mga_inputs cfg)) 12%Z
  /\ cost_epsilon s = get_or (mi_cost_epsilon (mga_inputs cfg)) 0.05%float
  /\ exists evs,
       tr = tr0 ++ evs
       /\ count is_warning_log evs
          = (Nat.b2n (negb (source_trace cfg))
             + match mi_axis (mga_inputs cfg) with Some _ => 0 | None => 1 end
             + match mi_weighting (mga_inputs cfg) with Some _ => 0 | None => 1 end)%nat.
Proof.
  unfold init, disable_flag. destruct (negb _); [discriminate|]. simpl.
  destruct (if solver_name cfg =? "appsi_highs" then _ else _) as [[o so] os].
  destruct (source_trace cfg), (save_lp_file cfg), (save_duals cfg),
    (save_excel cfg), (mi_axis (mga_inputs cfg)),
    (mi_weighting (mga_inputs cfg)); simpl;
    intros H; inversion H; subst; clear H; simpl;
    repeat (split; [reflexivity|]);
    rewrite <- ?app_assoc; simpl; eexists; (split; [reflexivity | reflexivity]).
Qed.

(** The shape of a successful construction. *)
Lemma init_shape
  (cfg : TemoaConfig) (tr0 tr : list event) (s : MgaSequencer) :
  init cfg tr0 = (inr s, tr) ->
  con s = input_database cfg
  /\ solve_count s = 0%Z
  /\ internal_stop s = false
  /\ solve_records s = []
  /\ orig_label s = scenario cfg
  /\ exists logs,
       tr = tr0 ++ [EConnect (input_database cfg)] ++ logs
            ++ [EWriterInit; EClearIndexedScenarios;
                ELog INFO "Initialized MGA sequencer with MGA Axis %s and weighting %s"]
       /\ forallb is_log logs = true.
Proof.
  unfold init, disable_flag. destruct (negb _); [discriminate|]. simpl.
  destruct (if solver_name cfg =? "appsi_highs" then _ else _) as [[o so] os].
  destruct (source_trace cfg), (save_lp_file cfg), (save_duals cfg),
    (save_excel cfg), (mi_axis (mga_inputs cfg)),
    (mi_weighting (mga_inputs cfg)); simpl;
    intros H; inversion H; subst; clear H; simpl;
    repeat (split; [reflexivity|]);
    rewrite <- ?app_assoc; simpl;
    match goal with
    | |- exists logs, _ ++ EConnect _ :: ?l = _ /\ _ =>
        exists (removelast (removelast (removelast l)))
    end; (split; reflexivity).
Qed.

(** X3 - on success the constructor opens exactly one connection, to the
    input database and before anything else, keeps it in [con], then only
    logs until it creates the writer and clears the records of earlier
    runs, once, just before its closing log line; the object starts with
    the counter at 0, the stop flag down and no solve record. *)
Theorem init_connects_first_clears_last
  (cfg : TemoaConfig) (tr0 tr : list event) (s : MgaSequencer) :
  init cfg tr0 = (inr s, tr) ->
  con s = input_database cfg
  /\ solve_count s = 0%Z
  /\ internal_stop s = false
  /\ solve_records s = []
  /\ orig_label s = scenario cfg
  /\ exists logs,
       tr = tr0 ++ [EConnect (input_database cfg)] ++ logs
            ++ [EWriterInit; EClearIndexedScenarios;
                ELog INFO "Initialized MGA sequencer with MGA Axis %s and weighting %s"]
       /\ forallb is_log logs = true.
Proof. apply init_shape. Qed.

End ConstructorMore.

Section PoolMore.
Context {X : External} {C : Collaborators}.

(** ** The pool *)

Lemma set_nth_last (l : list bool) (b : bool) :
  set_nth (List.length l) true (l ++ [b]) = l ++ [true].
Proof. induction l as [|a l IH]; simpl; [reflexivity | now rewrite IH]. Qed.

Lemma make_workers_pool (n : nat) (workers : list nat) (w : World) :
  exists w',
    make_workers n workers w
    = Ret (workers ++ seq (List.length (alive (ext w))) n) w'
    /\ self w' = self w
    /\ work_max w' = work_max w /\ result_max w' = result_max w
    /\ wq (ext w') = wq (ext w) /\ rq (ext w') = rq (ext w)
    /\ alive (ext w') = alive (ext w) ++ repeat true n
    /\ trace w' = trace w ++ worker_events (seq (List.length (alive (ext w))) n).
Proof.
  revert workers w. induction n as [|n IH]; intros workers w; simpl.
  - exists w. rewrite !app_nil_r. repeat split; reflexivity.
  - set (h := List.length (alive (ext w))).
    set (w1 := with_trace (fun tr => tr ++ [EWorkerStart h])
                 (with_ext (fun e => set_alive (set_nth h true (alive e)) e)
                    (with_trace (fun tr => tr ++ [EWorkerNew h])
                       (with_ext (fun e => set_alive (alive e ++ [false]) e) w)))).
    unfold bind at 1. change (Worker_new w)
      with (Ret h (with_trace (fun tr => tr ++ [EWorkerNew h])
                     (with_ext (fun e => set_alive (alive e ++ [false]) e) w))).
    unfold bind at 1. change (Worker_start h _) with (Ret tt w1).
    destruct (IH (workers ++ [h]) w1) as (w' & E' & S' & M' & R' & Q' & P' & A' & T').
    assert (Ha : alive (ext w1) = alive (ext w) ++ [true]).
    { unfold w1, h. simpl. apply set_nth_last. }
    assert (Hl : List.length (alive (ext w1)) = S h).
    { rewrite Ha, length_app. simpl. unfold h. lia. }
    rewrite Hl in E', T'. exists w'. rewrite E', <- app_assoc. simpl.
    repeat split; auto.
    + rewrite A', Ha, <- app_assoc. reflexivity.
    + rewrite T'. unfold w1. simpl. rewrite <- !app_assoc. reflexivity.
Qed.

(** X4 - with the worker options set, step 5 replaces the work and result
    queues by empty ones of capacity 5, then makes six workers and starts
    each one as soon as it is made: their handles are the next six process
    numbers, all six are alive when the step ends, and nothing else is
    touched. *)
Theorem set_up_workers_makes_six
  (w : World) (opts : SolverOptions) :
  options (self w) = Some opts ->
  exists w',
    set_up_workers w = Ret (seq (List.length (alive (ext w))) 6) w'
    /\ self w' = self w
    /\ work_max w' = 5%nat /\ result_max w' = 5%nat
    /\ wq (ext w') = [] /\ rq (ext w') = []
    /\ alive (ext w') = alive (ext w) ++ repeat true 6
    /\ trace w'
       = trace w ++ queue_events
         ++ worker_events (seq (List.length (alive (ext w))) 6).
Proof.
  intros Ho.
  set (w0 := {| self := self w; ext := set_rq [] (set_wq [] (ext w));
                work_max := 5; result_max := 5; closed := closed w;
                ticks := ticks w; trace := trace w ++ queue_events |}).
  assert (E : set_up_workers w = make_workers num_workers [] w0).
  { unfold set_up_workers, new_queue, self_options, bind, get_self, emit, ret, raise.
    cbn -[make_workers num_workers]. rewrite Ho.
    unfold w0, queue_events, with_trace. cbn -[make_workers num_workers].
    rewrite <- !app_assoc. reflexivity. }
  destruct (make_workers_pool num_workers [] w0)
    as (w' & E' & S' & M' & R' & Q' & P' & A' & T').
  exists w'. rewrite E, E'. repeat split; auto.
  rewrite T'. unfold w0. simpl. now rewrite <- app_assoc.
Qed.

End PoolMore.

Section LoopMore.
Context {X : External} {C : Collaborators}.

(** ** More on the loop *)

Lemma recorded_iterations_app (l1 l2 : list event) :
  recorded_iterations (l1 ++ l2) = recorded_iterations l1 ++ recorded_iterations l2.
Proof.
  induction l1 as [|a l1 IH]; simpl; [reflexivity|].
  destruct a; simpl; rewrite ?IH; reflexivity.
Qed.

Lemma recorded_iterations_transfer (l : list event) :
  forallb is_transfer l = true -> recorded_iterations l = [].
Proof.
  induction l as [|a l IH]; simpl; [reflexivity|].
  intros H. apply andb_prop in H as [Ha H]. destruct a; try discriminate; auto.
Qed.

Lemma ingested_self_fields (s : MgaSequencer) :
  solve_count (ingested_self s) = (solve_count s + 1)%Z
  /\ iteration_limit (ingested_self s) = iteration_limit s
  /\ internal_stop (ingested_self s)
     = (internal_stop s || (iteration_limit s <=? solve_count s + 1)%Z).
Proof.
  unfold ingested_self. destruct (_ <=? _)%Z; simpl; repeat split;
    rewrite ?orb_true_r, ?orb_false_r; reflexivity.
Qed.

(** The progress of the loop: what is recorded, the counter, the flag. *)
Lemma main_loop_progress (fuel : nat) (vm : VM) (c : candidate) (w : World) :
  exists evs,
    trace (final (main_loop fuel vm c w)) = trace w ++ evs
    /\ recorded_iterations evs
       = iterations_from (solve_count (self w)) (count is_ingestion evs)
    /\ solve_count (self (final (main_loop fuel vm c w)))
       = (solve_count (self w) + Z.of_nat (count is_ingestion evs))%Z
    /\ iteration_limit (self (final (main_loop fuel vm c w))) = iteration_limit (self w)
    /\ implb (internal_stop (self w))
         (internal_stop (self (final (main_loop fuel vm c w)))) = true.
Proof.
  revert vm c w. induction fuel as [|fuel IH]; intros vm c w;
    rewrite main_loop_unfold;
    destruct (negb (stop_resolving vm) && negb (internal_stop (self w)));
    try (exists []; simpl; rewrite app_nil_r; repeat split; auto; try lia;
         now destruct (internal_stop (self w))).
  destruct (round_effect vm c w) as (ev1 & T1 & Hcase).
  destruct (bind_cases (round vm c) (fun x => main_loop fuel (fst x) (snd x)) w)
    as [([vm1 c1] & w1 & E1 & ->) | (Hnr & -> & _)].
  - rewrite E1 in T1, Hcase. simpl in T1, Hcase. simpl fst. simpl snd.
    destruct (IH vm1 c1 w1) as (ev2 & T2 & R2 & N2 & L2 & M2).
    destruct Hcase as [(F1 & S1) | (pre & r & -> & F1 & _ & S1)].
    + rewrite S1 in *. exists (ev1 ++ ev2).
      rewrite recorded_iterations_app, count_app.
      rewrite (recorded_iterations_transfer ev1 F1).
      rewrite (count_none is_ingestion is_transfer ev1 transfer_not_ingestion F1).
      simpl. split; [rewrite T2, T1; now rewrite app_assoc|]. auto.
    + destruct (ingested_self_fields (self w)) as (Hs & Hl & Hi).
      rewrite S1, ?Hs, ?Hl, ?Hi in *.
      exists ((pre ++ ingestion_events r (solve_count (self w))) ++ ev2).
      rewrite !recorded_iterations_app, !count_app.
      rewrite (recorded_iterations_transfer pre F1).
      rewrite (count_none is_ingestion is_transfer pre transfer_not_ingestion F1).
      simpl. split; [rewrite T2, T1; rewrite <- !app_assoc; reflexivity|].
      split; [now rewrite R2|]. split; [rewrite N2; lia|]. split; [exact L2|].
      destruct (internal_stop (self w)); [exact M2 | reflexivity].
  - destruct Hcase as [(F1 & S1) | (pre & r & _ & _ & Hret & _)];
      [|rewrite Hret in Hnr; discriminate].
    exists ev1. split; [exact T1|]. rewrite S1.
    rewrite (recorded_iterations_transfer ev1 F1).
    rewrite (count_none is_ingestion is_transfer ev1 transfer_not_ingestion F1).
    simpl. repeat split; try lia. now destruct (internal_stop (self w)).
Qed.

(** X5 - the results ingested by the loop are recorded under consecutive
    iteration numbers, starting at the value of the counter when the loop is
    entered, without gap or repetition; the counter ends at its initial
    value plus the number of results ingested. *)
Theorem recorded_iterations_are_consecutive
  (fuel : nat) (vm : VM) (c : candidate) (w : World) :
  exists evs,
    trace (final (main_loop fuel vm c w)) = trace w ++ evs
    /\ recorded_iterations evs
       = iterations_from (solve_count (self w)) (count is_ingestion evs)
    /\ solve_count (self (final (main_loop fuel vm c w)))
       = (solve_count (self w) + Z.of_nat (count is_ingestion evs))%Z.
Proof.
  destruct (main_loop_progress fuel vm c w) as (evs & T & R & N & _).
  exists evs. auto.
Qed.

(** X6 - the stop flag and the counter never go back: a round leaves a
    raised flag raised and moves the counter by 0 or 1, the loop as a whole
    keeps a raised flag and never lowers the counter nor touches the limit,
    and a loop entered with the flag raised returns at once, its candidate
    and vector manager as they were and nothing done. *)
Theorem stop_flag_and_counter_never_go_back
  (fuel : nat) (vm : VM) (c : candidate) (w : World) :
  implb (internal_stop (self w)) (internal_stop (self (final (round vm c w)))) = true
  /\ (solve_count (self w) <= solve_count (self (final (round vm c w)))
      <= solve_count (self w) + 1)%Z
  /\ implb (internal_stop (self w))
       (internal_stop (self (final (main_loop fuel vm c w)))) = true
  /\ (solve_count (self w) <= solve_count (self (final (main_loop fuel vm c w))))%Z
  /\ iteration_limit (self (final (main_loop fuel vm c w))) = iteration_limit (self w)
  /\ (if internal_stop (self w)
      then main_loop fuel vm c w = Ret (vm, c) w
      else True).
Proof.
  destruct (round_effect vm c w) as (ev1 & _ & Hcase).
  destruct (main_loop_progress fuel vm c w) as (evs & _ & _ & N & L & Mono).
  destruct (ingested_self_fields (self w)) as (Hs & _ & Hi).
  split; [|split; [|split; [exact Mono | split; [lia | split; [exact L|]]]]].
  - destruct Hcase as [(_ & ->) | (_ & _ & _ & _ & _ & ->)].
    + now destruct (internal_stop (self w)).
    + rewrite Hi. now destruct (internal_stop (self w)).
  - destruct Hcase as [(_ & ->) | (_ & _ & _ & _ & _ & ->)]; [lia|].
    rewrite Hs. lia.
  - destruct (internal_stop (self w)) eqn:E; [|exact I].
    rewrite main_loop_unfold, E. now rewrite andb_false_r.
Qed.

Lemma bind_not_returned {A B} (m : M A) (k : A -> M B) (w : World) :
  returned (m w) = false -> is_out_of_fuel (bind m k w) = is_out_of_fuel (m w).
Proof. unfold bind. destruct (m w); simpl; [discriminate | auto ..]. Qed.

Lemma submit_work_results (vm : VM) (c : candidate) (w : World) :
  is_out_of_fuel (submit_work vm c w) = false
  /\ (rq (ext (final (submit_work vm c w))) = rq (ext w)
      \/ rq (ext (final (submit_work vm c w))) = rq (ext (ticked w))).
Proof.
  destruct c as [|m].
  - rewrite submit_work_waiting. auto.
  - destruct (List.length (wq (ext (ticked w))) <? work_max w)%nat eqn:Hroom.
    + pose proof (submit_work_room vm m w Hroom) as E. simpl in E. rewrite E.
      destruct (instance_generator_next _ _) as [[c vm']|]; simpl; auto.
    + rewrite (submit_work_full vm m w Hroom). simpl. auto.
Qed.

(** With workers that never send [None], a round that returns has ingested
    a result, and a round never exhausts the unrolling bound. *)
Lemma round_with_models (vm : VM) (c : candidate) (w : World) :
  workers_send_models ->
  forallb is_model (rq (ext w)) = true ->
  is_out_of_fuel (round vm c w) = false
  /\ forall vm' c' w',
       round vm c w = Ret (vm', c') w' ->
       self w' = ingested_self (self w)
       /\ forallb is_model (rq (ext w')) = true.
Proof.
  intros Henv J. rewrite round_unfold.
  destruct (submit_work_effect vm c (logged w)) as (S1 & _).
  destruct (submit_work_results vm c (logged w)) as (O1 & Q1).
  assert (J1 : forallb is_model (rq (ext (final (submit_work vm c (logged w))))) = true).
  { destruct Q1 as [-> | ->]; [exact J | apply Henv; exact J]. }
  destruct (submit_work vm c (logged w)) as [[vm1 c1] w1| e w1 | w1 | w1] eqn:E1;
    try discriminate;
    try (unfold bind; rewrite E1; simpl; split; [reflexivity | discriminate]).
  rewrite (bind_of_ret _ _ _ _ _ E1). simpl in S1, J1. simpl fst. simpl snd.
  destruct (rq (ext (ticked w1))) as [|r rest] eqn:Hq.
  - unfold bind. rewrite (poll_result_empty w1 Hq). simpl.
    split; [reflexivity | discriminate].
  - rewrite (bind_of_ret _ _ _ _ _ (poll_result_item w1 r rest Hq)).
    assert (J2 : forallb is_model (r :: rest) = true).
    { rewrite <- Hq. simpl. apply Henv. exact J1. }
    simpl in J2. apply andb_prop in J2 as [Hr J2].
    destruct r as [r|]; [|discriminate].
    match goal with |- context [ingest_result r vm1 c1 ?w0] =>
      destruct (ingest_result_returns r vm1 c1 w0) as (w3 & E3 & S3 & X3 & _)
    end.
    rewrite E3. split; [reflexivity|].
    intros vm' c' w' [= _ _ <-]. rewrite S3, X3. simpl. split; [|exact J2].
    now rewrite S1.
Qed.

(** X10 - with workers that never send [None] on the result queue, the body
    of the loop is run at most max(1, limit - counter) times: unrolled that
    many times, the loop returns, raises or blocks in a queue call, it does
    not ask for another round. *)
Theorem loop_runs_bounded_rounds
  (fuel : nat) (vm : VM) (c : candidate) (w : World) :
  workers_send_models ->
  forallb is_model (rq (ext w)) = true ->
  (Z.max 1 (iteration_limit (self w) - solve_count (self w)) <= Z.of_nat fuel)%Z ->
  is_out_of_fuel (main_loop fuel vm c w) = false.
Proof.
  intros Henv. revert vm c w. induction fuel as [|fuel IH]; intros vm c w J Hf;
    [lia|].
  rewrite main_loop_unfold.
  destruct (negb (stop_resolving vm) && negb (internal_stop (self w))) eqn:Hc;
    [|reflexivity].
  destruct (round_with_models vm c w Henv J) as (O1 & Hret).
  destruct (round vm c w) as [[vm1 c1] w1| e w1 | w1 | w1] eqn:E1;
    try discriminate; try (unfold bind; rewrite E1; reflexivity).
  rewrite (bind_of_ret _ _ _ _ _ E1). simpl fst. simpl snd.
  destruct (Hret vm1 c1 w1 eq_refl) as (S1 & J1).
  destruct (ingested_self_fields (self w)) as (Hs & Hl & Hi).
  apply andb_prop in Hc as [_ Hstop]. apply negb_true_iff in Hstop.
  rewrite Hstop in Hi. simpl in Hi.
  destruct (iteration_limit (self w) <=? solve_count (self w) + 1)%Z eqn:Hlim.
  - rewrite main_loop_unfold, S1, Hi. now rewrite andb_false_r.
  - apply Z.leb_gt in Hlim. apply IH; [exact J1|]. rewrite S1, Hs, Hl. lia.
Qed.

End LoopMore.

Section PoolInvariants.
Context {X : External} {C : Collaborators}.

(** ** What the pool keeps and what it never does *)

Lemma keeps_bind {A B} (I : World -> Prop) (m : M A) (k : A -> M B) :
  keeps I m -> (forall a, keeps I (k a)) -> keeps I (bind m k).
Proof.
  intros Hm Hk w Hw. unfold bind. specialize (Hm w Hw).
  destruct (m w) as [a w'| | |]; simpl in *; auto. apply Hk, Hm.
Qed.

Lemma keeps_try {A} (I : World -> Prop) (m : M A) h :
  keeps I m -> (forall e k, h e = Some k -> keeps I k) -> keeps I (try_except m h).
Proof.
  intros Hm Hh w Hw. unfold try_except. specialize (Hm w Hw).
  destruct (m w) as [a w'|e w'| |]; simpl in *; auto.
  destruct (h e) as [k|] eqn:E; simpl; auto. apply (Hh e k E), Hm.
Qed.

Lemma keeps_capacity_untouched {A} (n : nat) (m : M A) :
  (forall w, wq (ext (final (m w))) = wq (ext w)
             /\ work_max (final (m w)) = work_max w) ->
  keeps (capacity_is n) m.
Proof.
  intros H w [Hc Hn]. destruct (H w) as [Hq Hm].
  unfold capacity_is, within_capacity in *. rewrite Hq, Hm. auto.
Qed.

Lemma keeps_put (n : nat) item block :
  workers_only_take -> keeps (capacity_is n) (work_queue_put item block).
Proof.
  intros Henv w [Hc Hn]. unfold capacity_is, within_capacity in *.
  unfold work_queue_put, bind, tick. simpl.
  specialize (Henv (ticks w) (ext w)).
  destruct (_ <? _)%nat eqn:Hroom; simpl.
  - apply Nat.ltb_lt in Hroom. rewrite length_app. simpl. lia.
  - destruct block; simpl; lia.
Qed.

Lemma keeps_get (n : nat) block :
  workers_only_take -> keeps (capacity_is n) (result_queue_get block).
Proof.
  intros Henv w [Hc Hn]. unfold capacity_is, within_capacity in *.
  unfold result_queue_get, bind, tick. simpl.
  specialize (Henv (ticks w) (ext w)).
  destruct (rq _); [destruct block|]; simpl; lia.
Qed.

Lemma keeps_join (n : nat) h :
  workers_only_take -> keeps (capacity_is n) (join h).
Proof.
  intros Henv w [Hc Hn]. unfold capacity_is, within_capacity in *.
  unfold join, bind, tick. simpl.
  specialize (Henv (ticks w) (ext w)).
  destruct (nth h _ false); simpl; lia.
Qed.

Lemma keeps_next (n : nat) vm : keeps (capacity_is n) (next vm).
Proof.
  apply keeps_capacity_untouched. intros w. unfold next, bind, get_self, emit, ret, raise.
  destruct (instance_generator_next _ _) as [[c vm']|]; auto.
Qed.

Lemma keeps_round (n : nat) vm c :
  workers_only_take -> keeps (capacity_is n) (round vm c).
Proof.
  intros Henv. unfold round, logger.
  apply keeps_bind; [now apply keeps_capacity_untouched | intros _].
  apply keeps_bind.
  - unfold submit_work. apply keeps_try.
    + destruct c as [|m]; [now apply keeps_capacity_untouched|].
      apply keeps_bind; [now apply keeps_put | intros _].
      apply keeps_bind; [apply keeps_next | intros [c' vm']].
      now apply keeps_capacity_untouched.
    + intros e k. destruct e; try discriminate. intros [= <-].
      now apply keeps_capacity_untouched.
  - intros [vm1 c1]. apply keeps_bind.
    + unfold poll_result. apply keeps_try; [now apply keeps_get|].
      intros e k. destruct e; try discriminate. intros [= <-].
      now apply keeps_capacity_untouched.
    + intros [r|]; [|now apply keeps_capacity_untouched].
      apply keeps_capacity_untouched. intros w.
      destruct (ingest_result_returns r vm1 c1 w) as (w' & E & _ & Hx & _).
      rewrite E. simpl. rewrite Hx. split; [reflexivity|].
      unfold ingest_result, process_solve_results, bind, emit, get_self,
        modify_self, ret in E. simpl in E.
      destruct (_ <=? _)%Z; simpl in E; injection E as <-; reflexivity.
Qed.

Lemma keeps_main_loop (n : nat) fuel vm c :
  workers_only_take -> keeps (capacity_is n) (main_loop fuel vm c).
Proof.
  intros Henv.
  assert (Hc : forall v, keeps (capacity_is n) (loop_condition v))
    by (intros v; now apply keeps_capacity_untouched).
  revert vm c. induction fuel as [|fuel IH]; intros vm c; simpl;
    (apply keeps_bind; [apply Hc|]); intros [|];
    try (now apply keeps_capacity_untouched).
  apply keeps_bind; [now apply keeps_round | intros [vm1 c1]; apply IH].
Qed.

Lemma keeps_for_each {A} (I : World -> Prop) (l : list A) f :
  (forall a, keeps I (f a)) -> keeps I (for_each l f).
Proof.
  intros Hf. induction l as [|a l IH]; simpl.
  - intros w Hw. exact Hw.
  - apply keeps_bind; auto.
Qed.

Lemma keeps_shutdown (n : nat) workers :
  workers_only_take -> keeps (capacity_is n) (shutdown workers).
Proof.
  intros Henv. unfold shutdown, print.
  apply keeps_bind; [now apply keeps_capacity_untouched | intros _].
  apply keeps_bind; [apply keeps_for_each; intros; now apply keeps_put | intros _].
  apply keeps_bind;
    [apply keeps_for_each; intros; now apply keeps_capacity_untouched | intros _].
  apply keeps_bind.
  { apply keeps_for_each. intros h.
    apply keeps_bind; [now apply keeps_join | intros _].
    now apply keeps_capacity_untouched. }
  intros _.
  apply keeps_bind;
    [apply keeps_for_each; intros; now apply keeps_capacity_untouched | intros _].
  now apply keeps_capacity_untouched.
Qed.

Lemma keeps_make_workers (n : nat) k workers :
  keeps (capacity_is n) (make_workers k workers).
Proof.
  apply keeps_capacity_untouched. intros w.
  destruct (make_workers_pool k workers w) as (w' & E & _ & M & _ & Q & _).
  rewrite E. simpl. auto.
Qed.

(** X7 - as long as the workers only take from the work queue, the number
    of items in it never exceeds its capacity: the loop keeps that bound
    whatever the capacity, and after the pool has run, however it ended,
    the queue made by step 5 holds at most its 5 items. *)
Theorem work_queue_within_capacity
  (fuel : nat) (vm : VM) (c : candidate) (w : World) :
  workers_only_take ->
  (within_capacity w ->
   within_capacity (final (main_loop fuel vm c w))
   /\ work_max (final (main_loop fuel vm c w)) = work_max w)
  /\ (List.length (wq (ext (final (run_pool fuel vm w)))) <= 5)%nat
  /\ work_max (final (run_pool fuel vm w)) = 5%nat.
Proof.
  intros Henv. split.
  - intros Hw. apply (keeps_main_loop (work_max w) fuel vm c Henv w). now split.
  - assert (H : capacity_is 5 (final (run_pool fuel vm w))).
    { unfold run_pool, set_up_workers.
      set (w1 := final (new_queue WorkQ 5 w)).
      assert (H1 : capacity_is 5 w1) by (split; simpl; [unfold within_capacity; simpl; lia | reflexivity]).
      assert (E1 : new_queue WorkQ 5 w = Ret tt w1) by reflexivity.
      match goal with |- capacity_is 5 (final (bind (bind (new_queue WorkQ 5) ?k1) ?k2 w)) =>
        rewrite (bind_bind_of_ret (new_queue WorkQ 5) k1 k2 w w1 tt E1) end.
      revert H1. generalize w1. 
      apply keeps_bind.
      - apply keeps_bind; [now apply keeps_capacity_untouched | intros _].
        apply keeps_bind; [now apply keeps_capacity_untouched | intros _].
        apply keeps_bind.
        + apply keeps_capacity_untouched. intros w0.
          unfold self_options, bind, get_self, ret, raise.
          destruct (options (self w0)); auto.
        + intros _. apply keeps_make_workers.
      - intros workers. apply keeps_bind.
        + unfold iterate. apply keeps_bind; [apply keeps_next | intros [c1 vm1]].
          now apply keeps_main_loop.
        + intros _. apply keeps_bind; [now apply keeps_shutdown | intros _].
          now apply keeps_capacity_untouched. }
    destruct H as [Hc Hn]. unfold within_capacity in Hc. rewrite Hn in Hc. auto.
Qed.

End PoolInvariants.

Section FailureMore.
Context {X : External} {C : Collaborators}.

(** ** Failures in the loop, and a shutdown that cannot proceed *)

Lemma appends_iterate_round vm c : appends is_iterate_event (round vm c).
Proof.
  unfold round, logger.
  apply appends_bind; [apply appends_emit; reflexivity | intros _].
  apply appends_bind.
  - unfold submit_work. apply appends_try.
    + destruct c as [|m]; [apply appends_ret|].
      apply appends_bind; [apply appends_put; reflexivity | intros _].
      apply appends_bind; [apply appends_next; reflexivity | intros [c' vm']].
      apply appends_ret.
    + intros e k. destruct e; try discriminate. intros [= <-].
      apply appends_bind; [apply appends_emit; reflexivity | intros _].
      apply appends_ret.
  - intros [vm1 c1]. apply appends_bind.
    + unfold poll_result. apply appends_try; [apply appends_get; reflexivity|].
      intros e k. destruct e; try discriminate. intros [= <-]. apply appends_ret.
    + intros [r|]; [|apply appends_ret].
      intros w. destruct (ingest_result_returns r vm1 c1 w) as (w' & E & _ & _ & T).
      rewrite E. simpl. eexists. split; [exact T | reflexivity].
Qed.

Lemma appends_iterate_main_loop fuel vm c :
  appends is_iterate_event (main_loop fuel vm c).
Proof.
  assert (Hc : forall v, appends is_iterate_event (loop_condition v)).
  { intros v. unfold loop_condition.
    apply appends_bind; [apply appends_get_self | intros; apply appends_ret]. }
  revert vm c. induction fuel as [|fuel IH]; intros vm c; simpl;
    (apply appends_bind; [apply Hc|]); intros [|].
  - apply appends_nothing. reflexivity.
  - apply appends_ret.
  - apply appends_bind; [apply appends_iterate_round|]. intros [vm' c']. apply IH.
  - apply appends_ret.
Qed.

Lemma appends_iterate fuel vm : appends is_iterate_event (iterate fuel vm).
Proof.
  unfold iterate. apply appends_bind; [apply appends_next; reflexivity|].
  intros [c vm']. apply appends_iterate_main_loop.
Qed.

Lemma appends_set_up_workers :
  appends (fun e => negb (is_shutdown_event e)) set_up_workers.
Proof.
  assert (Hq : forall q n, appends (fun e => negb (is_shutdown_event e)) (new_queue q n)).
  { intros q n. unfold new_queue.
    apply appends_bind; [apply appends_emit; reflexivity | intros _].
    apply appends_nothing. intros w. now destruct q. }
  unfold set_up_workers.
  apply appends_bind; [apply Hq | intros _].
  apply appends_bind; [apply Hq | intros _].
  apply appends_bind; [apply Hq | intros _].
  apply appends_bind.
  - unfold self_options. apply appends_bind; [apply appends_get_self|].
    intros s. destruct (options s); [apply appends_ret | apply appends_raise].
  - intros _ w.
    destruct (make_workers_pool num_workers [] w) as (w' & E & _ & _ & _ & _ & _ & _ & T).
    rewrite E. simpl. eexists. split; [exact T|].
    generalize (seq (List.length (alive (ext w))) num_workers). intros l.
    induction l as [|h l IH]; simpl; [reflexivity | exact IH].
Qed.

Lemma iterate_not_shutdown e : is_iterate_event e = true -> negb (is_shutdown_event e) = true.
Proof.
  destruct e; simpl; try reflexivity; try discriminate.
  match goal with |- context [match ?i with _ => _ end] => destruct i end;
    [reflexivity | discriminate].
Qed.

(** X8 - the shutdown is reached only through a loop that returns: when
    the workers cannot be set up, or when the first pull or the loop raises
    or blocks, the pool phase ends right there, and no sentinel has been
    sent, no worker joined, no queue closed and the tracker not finalised. *)
Theorem no_shutdown_unless_loop_returns (fuel : nat) (vm : VM) (w : World) :
  match set_up_workers w with
  | Ret workers w1 =>
      returned (iterate fuel vm w1) = false ->
      final (run_pool fuel vm w) = final (iterate fuel vm w1)
      /\ returned (run_pool fuel vm w) = false
      /\ exists evs,
           trace (final (run_pool fuel vm w)) = trace w ++ evs
           /\ existsb is_shutdown_event evs = false
  | _ =>
      final (run_pool fuel vm w) = final (set_up_workers w)
      /\ returned (run_pool fuel vm w) = false
      /\ exists evs,
           trace (final (run_pool fuel vm w)) = trace w ++ evs
           /\ existsb is_shutdown_event evs = false
  end.
Proof.
  assert (Hno : forall l, forallb (fun e => negb (is_shutdown_event e)) l = true ->
                          existsb is_shutdown_event l = false).
  { intros l. induction l as [|a l IH]; simpl; [reflexivity|].
    intros H. apply andb_prop in H as [Ha H]. rewrite (IH H).
    now destruct (is_shutdown_event a). }
  destruct (appends_set_up_workers w) as (ev1 & T1 & F1).
  unfold run_pool.
  destruct (set_up_workers w) as [workers w1| e w1 | w1 | w1] eqn:E1;
    try (unfold bind; rewrite E1; simpl in *; repeat split;
         exists ev1; split; [exact T1 | apply Hno, F1]).
  intros Hnr. rewrite (bind_of_ret _ _ _ _ _ E1).
  destruct (appends_iterate fuel vm w1) as (ev2 & T2 & F2).
  destruct (bind_cases (iterate fuel vm)
              (fun _ => shutdown workers ;; emit EFinalizeTracker) w1)
    as [(a & w2 & E2 & _) | (_ & Hf & Hr)].
  { rewrite E2 in Hnr. discriminate. }
  rewrite Hf, Hr. repeat split.
  exists (ev1 ++ ev2). simpl in T1. rewrite T2, T1, app_assoc. split; [reflexivity|].
  apply Hno. rewrite forallb_app, F1. simpl.
  apply (forallb_weaken is_iterate_event); [apply iterate_not_shutdown | exact F2].
Qed.

(** X9 - an exhausted generator stops the run in the middle of a round:
    when the put succeeds and [next] raises [StopIteration], the exception
    is not caught by the round nor by the loop; the candidate just put
    stays in the work queue and the result queue is not read. *)
Theorem exhausted_generator_raises_through_loop
  (fuel : nat) (vm : VM) (m : TemoaModel) (w : World) :
  stop_resolving vm = false ->
  internal_stop (self w) = false ->
  (List.length (wq (ext (ticked (logged w)))) <? work_max w)%nat = true ->
  instance_generator_next (config (self w)) vm = None ->
  exists w',
    round vm (Instance m) w = Raise StopIteration w'
    /\ main_loop (S fuel) vm (Instance m) w = Raise StopIteration w'
    /\ wq (ext w') = wq (ext (ticked (logged w))) ++ [Some m]
    /\ rq (ext w') = rq (ext (ticked (logged w)))
    /\ trace w'
       = trace w ++ [ELog INFO "Putting an instance in the work queue"; EPut (Some m)].
Proof.
  intros Hs Hi Hroom Hn.
  pose proof (submit_work_room vm m (logged w) Hroom) as E. simpl in E.
  change (config (self (logged w))) with (config (self w)) in E.
  rewrite Hn in E.
  eexists. split; [|split].
  - rewrite round_unfold. unfold bind at 1. rewrite E. reflexivity.
  - rewrite main_loop_unfold, Hs, Hi. simpl.
    unfold bind at 1. rewrite round_unfold. unfold bind at 1. rewrite E. reflexivity.
  - simpl. repeat split. now rewrite <- app_assoc.
Qed.

Lemma put_loop_blocks (workers : list nat) (w : World) :
  workers_take_nothing ->
  within_capacity w ->
  (work_max w < List.length (wq (ext w)) + List.length workers)%nat ->
  exists w',
    for_each workers (fun _ => work_queue_put None true) w = Blocked w'
    /\ trace w'
       = trace w ++ repeat (EPut None) (work_max w - List.length (wq (ext w))).
Proof.
  intros Henv. revert w. induction workers as [|h workers IH]; intros w Hc Hlt;
    unfold within_capacity in *; simpl in *; [lia|].
  pose proof (Henv (ticks w) (ext w)) as Hq.
  destruct (List.length (wq (ext w)) <? work_max w)%nat eqn:Hroom.
  - set (w1 := with_trace (fun tr => tr ++ [EPut None])
                 (with_ext (fun e => set_wq (wq e ++ [None]) e) (ticked w))).
    assert (E : work_queue_put None true w = Ret tt w1).
    { unfold work_queue_put, bind, tick. simpl.
      rewrite Hq, Hroom. reflexivity. }
    rewrite (bind_of_ret _ _ _ _ _ E).
    apply Nat.ltb_lt in Hroom.
    assert (Hl : List.length (wq (ext w1)) = S (List.length (wq (ext w)))).
    { unfold w1. simpl. rewrite Hq, length_app. simpl. lia. }
    destruct (IH w1) as (w' & E' & T').
    + unfold within_capacity. rewrite Hl. simpl. lia.
    + rewrite Hl. simpl. lia.
    + exists w'. split; [exact E'|]. rewrite T', Hl. simpl.
      replace (work_max w - List.length (wq (ext w)))%nat
        with (S (work_max w - S (List.length (wq (ext w)))))%nat by lia.
      simpl. now rewrite <- app_assoc.
  - exists (ticked w). split.
    + assert (E : work_queue_put None true w = Blocked (ticked w)).
      { unfold work_queue_put, bind, tick. simpl. rewrite Hq, Hroom. reflexivity. }
      unfold bind at 1. rewrite E. reflexivity.
    + apply Nat.ltb_ge in Hroom.
      replace (work_max w - List.length (wq (ext w)))%nat with 0%nat by lia.
      simpl. now rewrite app_nil_r.
Qed.

(** X11 - the sentinels are put with a blocking call: when no worker takes
    anything from the work queue and the sentinels do not all fit in it,
    the shutdown blocks on the first sentinel that finds the queue full,
    having joined no worker and closed no queue. *)
Theorem shutdown_blocks_when_sentinels_do_not_fit
  (workers : list nat) (w : World) :
  workers_take_nothing ->
  within_capacity w ->
  (work_max w < List.length (wq (ext w)) + List.length workers)%nat ->
  exists w',
    shutdown workers w = Blocked w'
    /\ trace w'
       = trace w ++ EPrint "shutting it down"
           :: repeat (EPut None) (work_max w - List.length (wq (ext w)))
    /\ existsb is_join (trace w') = existsb is_join (trace w)
    /\ existsb is_close (trace w') = existsb is_close (trace w).
Proof.
  intros Henv Hc Hlt. unfold shutdown, print.
  set (w0 := with_trace (fun tr => tr ++ [EPrint "shutting it down"]) w).
  assert (E0 : emit (EPrint "shutting it down") w = Ret tt w0) by reflexivity.
  rewrite (bind_of_ret _ _ _ _ _ E0).
  destruct (put_loop_blocks workers w0 Henv Hc Hlt) as (w' & E & T).
  exists w'. unfold bind at 1. rewrite E.
  assert (T' : trace w' = trace w ++ EPrint "shutting it down"
                 :: repeat (EPut None) (work_max w - List.length (wq (ext w)))).
  { rewrite T. unfold w0. simpl. now rewrite <- app_assoc. }
  split; [reflexivity|]. split; [exact T'|].
  rewrite T'. rewrite !existsb_app. simpl.
  assert (Hr : forall P, P (EPut None) = false ->
                 existsb P (repeat (EPut None) (work_max w - List.length (wq (ext w))))
                 = false).
  { intros P HP. generalize (work_max w - List.length (wq (ext w)))%nat as n.
    intros n. induction n as [|n IHn]; simpl; [reflexivity | now rewrite HP]. }
  rewrite !Hr by reflexivity. now rewrite !orb_false_r.
Qed.

End FailureMore.

Section HelpersMore.
Context {X : External} {C : Collaborators}.

(** ** The solve helper and the destructor *)

(** X12 - with a solver whose results are read as [res['Solver']],
    [solve_instance] answers [True] exactly when the solver ends optimal;
    it runs one solve, writes one log line and leaves the object as it was,
    the counter and the stop flag included, so such a solve does not count
    against the iteration limit.  With the appsi handle the solve runs and
    the subscript on its results raises [TypeError], with no log line and
    no answer.  On an object without [opt] it raises an attribute error
    before any solve. *)
Theorem solve_instance_reports_optimal (instance : TemoaModel) (w : World) :
  match opt (self w) with
  | Some (SolverFactory name gopts) =>
      exists w',
        solve_instance instance w
        = Ret (is_optimal (snd (opt_solve (SolverFactory name gopts) instance))) w'
        /\ self w' = self w
        /\ trace w'
           = trace w ++ [ESolve instance;
                         ELog INFO "Solve #%d time: %0.4f.  Status: %s"]
  | Some Highs =>
      exists w',
        solve_instance instance w = Raise TypeError w'
        /\ self w' = self w
        /\ trace w' = trace w ++ [ESolve instance]
  | None => solve_instance instance w = Raise (AttributeError "opt") w
  end.
Proof.
  unfold solve_instance, self_opt, solve, logger, bind, get_self, emit, tick,
    datetime_now, ret, raise. simpl.
  destruct (opt (self w)) as [[|name gopts]|]; simpl; [| |reflexivity].
  - eexists. split; [reflexivity|]. simpl. split; reflexivity.
  - eexists. split; [reflexivity|]. simpl. split; [reflexivity|].
    now rewrite <- app_assoc.
Qed.

(** What leaves the connection alone. *)

Lemma holds_bind {A B} (m : M A) (k : A -> M B) :
  holds_connection m -> (forall a, holds_connection (k a)) ->
  holds_connection (bind m k).
Proof.
  intros Hm Hk w. unfold bind. destruct (Hm w) as [Hc Hf].
  destruct (m w) as [a w'| | |]; simpl in *; auto.
  destruct (Hk a w') as [Hc' Hf']. split; congruence.
Qed.

Lemma holds_try {A} (m : M A) h :
  holds_connection m -> (forall e k, h e = Some k -> holds_connection k) ->
  holds_connection (try_except m h).
Proof.
  intros Hm Hh w. unfold try_except. destruct (Hm w) as [Hc Hf].
  destruct (m w) as [a w'|e w'| |]; simpl in *; auto.
  destruct (h e) as [k|] eqn:E; simpl; auto.
  destruct (Hh e k E w') as [Hc' Hf']. split; congruence.
Qed.

Lemma holds_untouched {A} (m : M A) :
  (forall w, self (final (m w)) = self w /\ trace (final (m w)) = trace w) ->
  holds_connection m.
Proof. intros H w. destruct (H w) as [-> ->]. auto. Qed.

Lemma holds_ret {A} (a : A) : holds_connection (ret a).
Proof. now apply holds_untouched. Qed.

Lemma holds_raise {A} e : holds_connection (raise (A := A) e).
Proof. now apply holds_untouched. Qed.

Lemma holds_emit e : is_connection_event e = false -> holds_connection (emit e).
Proof.
  intros H w. split; [reflexivity|]. simpl. rewrite filter_app. simpl.
  now rewrite H, app_nil_r.
Qed.

Lemma holds_modify f :
  (forall s, con (f s) = con s) -> holds_connection (modify_self f).
Proof. intros H w. split; [apply H | reflexivity]. Qed.

Lemma holds_new_queue q n : holds_connection (new_queue q n).
Proof.
  unfold new_queue. apply holds_bind; [now apply holds_emit | intros _].
  apply holds_untouched. intros w. now destruct q.
Qed.

Lemma holds_put item block : holds_connection (work_queue_put item block).
Proof.
  intros w. unfold work_queue_put, bind, tick. simpl.
  destruct (_ <? _)%nat; [|destruct block; auto]. simpl.
  rewrite filter_app. simpl. now rewrite app_nil_r.
Qed.

Lemma holds_get block : holds_connection (result_queue_get block).
Proof.
  intros w. unfold result_queue_get, bind, tick. simpl.
  destruct (rq _); [destruct block; auto|]. simpl.
  rewrite filter_app. simpl. now rewrite app_nil_r.
Qed.

Lemma holds_join h : holds_connection (join h).
Proof.
  intros w. unfold join, bind, tick. simpl.
  destruct (nth h _ false); [auto|]. simpl.
  rewrite filter_app. simpl. now rewrite app_nil_r.
Qed.

Lemma holds_close q : holds_connection (queue_close q).
Proof.
  intros w. simpl. rewrite filter_app. simpl. now rewrite app_nil_r.
Qed.

Lemma holds_for_each {A} (l : list A) f :
  (forall a, holds_connection (f a)) -> holds_connection (for_each l f).
Proof.
  intros Hf. induction l as [|a l IH]; simpl; [apply holds_ret|].
  apply holds_bind; auto.
Qed.

Lemma holds_make_workers n workers : holds_connection (make_workers n workers).
Proof.
  revert workers. induction n as [|n IH]; intros workers; simpl;
    [apply holds_ret|].
  apply holds_bind.
  { intros w. simpl. rewrite filter_app. simpl. now rewrite app_nil_r. }
  intros h. apply holds_bind; [|intros _; apply IH].
  intros w. simpl. rewrite filter_app. simpl. now rewrite app_nil_r.
Qed.

Ltac holds_step :=
  first
    [ apply holds_ret | apply holds_raise
    | apply holds_emit; reflexivity
    | apply holds_modify; reflexivity
    | apply holds_untouched; intros; split; reflexivity
    | apply holds_new_queue | apply holds_put | apply holds_get
    | apply holds_join | apply holds_close | apply holds_make_workers
    | apply holds_for_each; intros
    | apply holds_bind; [|intros] ].

Lemma holds_next vm : holds_connection (next vm).
Proof.
  unfold next. apply holds_bind; [holds_step | intros s].
  destruct (instance_generator_next _ _) as [[c vm']|]; repeat holds_step.
Qed.

Lemma holds_round vm c : holds_connection (round vm c).
Proof.
  unfold round, logger. apply holds_bind; [holds_step | intros _].
  apply holds_bind.
  { unfold submit_work. apply holds_try.
    - destruct c as [|m]; [holds_step|].
      apply holds_bind; [holds_step | intros _].
      apply holds_bind; [apply holds_next | intros [c' vm']]. holds_step.
    - intros e k. destruct e; try discriminate. intros [= <-].
      unfold print. repeat holds_step. }
  intros [vm1 c1]. apply holds_bind.
  { unfold poll_result. apply holds_try; [holds_step|].
    intros e k. destruct e; try discriminate. intros [= <-]. holds_step. }
  intros [r|]; [|holds_step].
  unfold ingest_result, process_solve_results.
  apply holds_bind; [holds_step | intros _].
  apply holds_bind;
    [apply holds_bind; [holds_step | intros s0; holds_step] | intros _].
  apply holds_bind; [holds_step | intros _].
  apply holds_bind; [holds_step | intros s1].
  apply holds_bind; [holds_step | intros _].
  apply holds_bind; [destruct (_ <=? _)%Z; holds_step | intros _]. holds_step.
Qed.

Lemma holds_main_loop fuel vm c : holds_connection (main_loop fuel vm c).
Proof.
  assert (Hc : forall v, holds_connection (loop_condition v))
    by (intros v; now apply holds_untouched).
  revert vm c. induction fuel as [|fuel IH]; intros vm c; simpl;
    (apply holds_bind; [apply Hc|]); intros [|]; try apply holds_ret.
  - now apply holds_untouched.
  - apply holds_bind; [apply holds_round | intros [vm1 c1]; apply IH].
Qed.

Lemma holds_shutdown workers : holds_connection (shutdown workers).
Proof. unfold shutdown, print. repeat holds_step. Qed.

Lemma holds_run_pool fuel vm : holds_connection (run_pool fuel vm).
Proof.
  unfold run_pool, set_up_workers, iterate, self_options.
  apply holds_bind.
  { do 3 (apply holds_bind; [holds_step | intros _]).
    apply holds_bind; [|intros _; holds_step].
    apply holds_bind; [holds_step | intros s].
    destruct (options s); holds_step. }
  intros workers. apply holds_bind.
  { apply holds_bind; [apply holds_next | intros [c vm1]]. apply holds_main_loop. }
  intros _. apply holds_bind; [apply holds_shutdown | intros _]. holds_step.
Qed.

Lemma holds_start fuel : holds_connection (start fuel).
Proof.
  unfold start. apply holds_bind.
  { unfold load_data. repeat holds_step. }
  intros instance. apply holds_bind.
  { unfold base_solve, self_opt, solve, logger.
    apply holds_bind; [holds_step | intros tic].
    apply holds_bind.
    { apply holds_bind; [holds_step | intros s]. destruct (opt s); holds_step. }
    intros o. apply holds_bind; [repeat holds_step | intros [solved res]].
    apply holds_bind; [holds_step | intros toc].
    apply holds_bind; [holds_step | intros _].
    apply holds_bind; [holds_step | intros _].
    apply holds_bind; [destruct res; holds_step | intros status].
    repeat holds_step. }
  intros solved. apply holds_bind.
  { unfold relax_cost, logger. apply holds_bind; [holds_step | intros s].
    apply holds_bind.
    { unfold value_TotalCost. destruct (TotalCost solved) as [e|];
        [destruct (pyo_value e (data solved))|]; holds_step. }
    intros tot_cost.
    apply holds_bind; [holds_step | intros _].
    apply holds_bind; [holds_step | intros _].
    apply holds_bind; [unfold set_cost_cap; repeat holds_step | intros capped].
    apply holds_bind; [|intros relaxed; holds_step].
    unfold del_TotalCost. destruct (TotalCost capped); repeat holds_step. }
  intros [relaxed tot_cost]. apply holds_bind.
  { unfold instantiate_manager. repeat holds_step. }
  intros vm. apply holds_run_pool.
Qed.

(** X13 - the connection that the constructor opens is held through the
    whole of [start] and closed by the destructor: a successful
    construction opens one connection, to the input database, and keeps it
    in [con]; [start], however it ends, neither opens nor closes a
    connection and leaves [con] as it is; the destructor of the constructed
    object, before or after [start], closes that connection and does
    nothing else. *)
Theorem del_closes_the_connection_of_init
  (cfg : TemoaConfig) (tr0 tr : list event) (s : MgaSequencer) (fuel : nat) :
  init cfg tr0 = (inr s, tr) ->
  filter is_connection_event tr
  = filter is_connection_event tr0 ++ [EConnect (input_database cfg)]
  /\ (forall w, self w = s ->
      del w = Ret tt (with_trace
                        (fun l => l ++ [ECloseConnection (input_database cfg)]) w))
  /\ (forall w, self w = s ->
      filter is_connection_event (trace (final (start fuel w)))
      = filter is_connection_event (trace w)
      /\ del (final (start fuel w))
         = Ret tt (with_trace
                     (fun l => l ++ [ECloseConnection (input_database cfg)])
                     (final (start fuel w)))).
Proof.
  intros Hi.
  destruct (init_shape cfg tr0 tr s Hi) as (Hc & _ & _ & _ & _ & logs & -> & F).
  split; [|split].
  - rewrite !filter_app.
    assert (Hlogs : filter is_connection_event logs = []).
    { apply filter_none. apply (forallb_weaken is_log); [|exact F].
      intros e. now destruct e. }
    rewrite Hlogs. reflexivity.
  - intros w <-. unfold del, bind, get_self, emit. now rewrite Hc.
  - intros w <-. destruct (holds_start fuel w) as [Hcon Hf]. split; [exact Hf|].
    unfold del, bind, get_self, emit. now rewrite Hcon, Hc.
Qed.

End HelpersMore.

(** ** The log listener *)


(** ** Closed instances of the above *)

Section MoreInstances.
#[local] Existing Instance toy_types.

Lemma pool_env_only_takes waits dt objective status :
  @workers_only_take toy_types (toy_collab waits (pool_env dt) objective status).
Proof.
  intros t e. simpl. unfold pool_env. simpl.
  destruct (pool_serve_effect (wq e) (set_wq [] e)) as [W _]. rewrite W. simpl. lia.
Qed.

Lemma pool_serve_models (items : list (option TemoaModel)) (e : Ext) :
  forallb is_model (rq e) = true ->
  forallb is_model (rq (pool_serve items e)) = true.
Proof.
  revert e. induction items as [|[m|] items IH]; intros e H; simpl.
  - exact H.
  - apply IH. simpl. rewrite forallb_app, H. reflexivity.
  - apply IH. exact H.
Qed.

Lemma pool_env_sends_models waits dt objective status :
  @workers_send_models toy_types (toy_collab waits (pool_env dt) objective status).
Proof.
  intros t e H. simpl. unfold pool_env. simpl. apply pool_serve_models. exact H.
Qed.

(** X1, X2, X3, an instance: every auxiliary output on, nothing configured. *)
Lemma init_disables_auxiliary_outputs_witness :
  exists s tr,
    init busy_config [] = (inr s, tr)
    /\ save_lp_file (config s) = false
    /\ save_duals (config s) = false
    /\ save_excel (config s) = false.
Proof.
  destruct (init busy_config []) as [[e|s] tr] eqn:E;
    [vm_compute in E; discriminate|].
  exists s, tr. split; [reflexivity|].
  destruct (init_disables_auxiliary_outputs busy_config [] tr s E)
    as (H1 & H2 & H3 & _).
  auto.
Defined.

Lemma init_defaults_and_warnings_witness :
  exists s tr,
    init busy_config [] = (inr s, tr)
    /\ iteration_limit s = 20%Z
    /\ time_limit_hrs s = 12%Z.
Proof.
  destruct (init busy_config []) as [[e|s] tr] eqn:E;
    [vm_compute in E; discriminate|].
  exists s, tr. split; [reflexivity|].
  destruct (init_defaults_and_warnings busy_config [] tr s E)
    as (_ & _ & H3 & H4 & _).
  auto.
Defined.

Lemma init_connects_first_clears_last_witness :
  exists s tr,
    init busy_config [] = (inr s, tr)
    /\ con s = "temoa.sqlite"
    /\ solve_count s = 0%Z.
Proof.
  destruct (init busy_config []) as [[e|s] tr] eqn:E;
    [vm_compute in E; discriminate|].
  exists s, tr. split; [reflexivity|].
  destruct (init_connects_first_clears_last busy_config [] tr s E)
    as (H1 & H2 & _).
  auto.
Defined.

(** X4, an instance: the pool of a fresh world. *)
Lemma set_up_workers_makes_six_witness :
  options (self (fresh_world 3)) = Some []
  /\ exists w',
       set_up_workers (fresh_world 3) = Ret [0; 1; 2; 3; 4; 5]%nat w'
       /\ alive (ext w') = repeat true 6.
Proof.
  split; [reflexivity|].
  destruct (set_up_workers_makes_six (fresh_world 3) []) as (w' & E & _ & _ & _ & _ & _ & A & _);
    [reflexivity|].
  exists w'. split; [exact E | exact A].
Defined.

(** X7, an instance: the pool of the contract. *)
Lemma work_queue_within_capacity_witness :
  (List.length
     (wq (ext (final (run_pool (C := toy_collab [] (pool_env 1) 1000 optimal) 10
                        (0, 0)%nat (fresh_world 3))))) <= 5)%nat.
Proof.
  apply (work_queue_within_capacity (C := toy_collab [] (pool_env 1) 1000 optimal)
           10 (0, 0)%nat Waiting (fresh_world 3)).
  apply pool_env_only_takes.
Defined.

(** X9, an instance: a generator that has nothing more to give. *)
Lemma exhausted_generator_raises_through_loop_witness :
  stop_resolving (Collaborators := spent_collab idle_env) (0, 0)%nat = false
  /\ internal_stop (self (loop_world 3 0 [])) = false
  /\ exists w',
       main_loop (C := spent_collab idle_env) 1 (0, 0)%nat (Instance (toy_model 1))
         (loop_world 3 0 [])
       = Raise StopIteration w'.
Proof.
  split; [reflexivity|]. split; [reflexivity|].
  destruct (exhausted_generator_raises_through_loop (C := spent_collab idle_env)
              0 (0, 0)%nat (toy_model 1) (loop_world 3 0 []))
    as (w' & _ & E & _);
    [reflexivity | reflexivity | vm_compute; reflexivity | reflexivity |].
  exists w'. exact E.
Defined.

(** X10, an instance: limit 3, counter 1, two rounds of fuel. *)
Lemma loop_runs_bounded_rounds_witness :
  forallb is_model (rq (ext (loop_world 3 0 []))) = true
  /\ (Z.max 1 (iteration_limit (self (loop_world 3 0 []))
               - solve_count (self (loop_world 3 0 []))) <= Z.of_nat 2)%Z
  /\ is_out_of_fuel
       (main_loop (C := toy_collab [] (pool_env 1) 1000 optimal) 2 (0, 0)%nat
          (Instance (toy_model 1)) (loop_world 3 0 [])) = false.
Proof.
  split; [reflexivity|]. split; [vm_compute; discriminate|].
  apply (loop_runs_bounded_rounds (C := toy_collab [] (pool_env 1) 1000 optimal)).
  - apply pool_env_sends_models.
  - reflexivity.
  - vm_compute. discriminate.
Defined.

(** X11, an instance: six workers, a queue of five places, nobody taking. *)
Lemma shutdown_blocks_when_sentinels_do_not_fit_witness :
  (work_max (loop_world 3 0 [])
   < List.length (wq (ext (loop_world 3 0 []))) + List.length [0; 1; 2; 3; 4; 5])%nat
  /\ exists w',
       shutdown (C := toy_collab [] idle_env 1000 optimal) [0; 1; 2; 3; 4; 5]%nat
         (loop_world 3 0 [])
       = Blocked w'
       /\ trace w' = EPrint "shutting it down" :: repeat (EPut None) 5.
Proof.
  split; [vm_compute; lia|].
  destruct (shutdown_blocks_when_sentinels_do_not_fit
              (C := toy_collab [] idle_env 1000 optimal)
              [0; 1; 2; 3; 4; 5]%nat (loop_world 3 0 []))
    as (w' & E & T & _).
  - intros t e. reflexivity.
  - unfold within_capacity. vm_compute. lia.
  - vm_compute. lia.
  - exists w'. split; [exact E | exact T].
Defined.

(** X13, an instance: the connection of [toy_config]. *)
Lemma del_closes_the_connection_of_init_witness :
  exists s tr,
    init (toy_config "temoa.sqlite" "cbc" (Some 3%Z)) [] = (inr s, tr)
    /\ del
         (final (start (C := toy_collab [] (pool_env 1) 1000 optimal) 10
                   (initial_world s tr)))
       = Ret tt (with_trace (fun l => l ++ [ECloseConnection "temoa.sqlite"])
                   (final (start (C := toy_collab [] (pool_env 1) 1000 optimal) 10
                             (initial_world s tr)))).
Proof.
  destruct (init (toy_config "temoa.sqlite" "cbc" (Some 3%Z)) []) as [[e|s] tr] eqn:E;
    [vm_compute in E; discriminate|].
  exists s, tr. split; [reflexivity|].
  destruct (del_closes_the_connection_of_init
              (C := toy_collab [] (pool_env 1) 1000 optimal)
              (toy_config "temoa.sqlite" "cbc" (Some 3%Z)) [] tr s 10 E)
    as (_ & _ & H).
  destruct (H (initial_world s tr) eq_refl) as (_ & D). exact D.
Defined.

(** X15, an instance: the run of [toy_config] with limit 3. *)
Lemma loop_entered_with_base_solve_counted_witness :
  exists workers w2 c vm1,
    start (C := toy_collab [] (pool_env 1) 1000 optimal) 10
      (initial_world (toy_self 3)
         (snd (init (toy_config "temoa.sqlite" "cbc" (Some 3%Z)) [])))
    = (main_loop (C := toy_collab [] (pool_env 1) 1000 optimal) 10 vm1 c ;;
       shutdown (C := toy_collab [] (pool_env 1) 1000 optimal) workers ;;
       emit EFinalizeTracker) w2
    /\ solve_count (self w2) = 1%Z.
Proof.
  destruct (loop_entered_with_base_solve_counted
              (C := toy_collab [] (pool_env 1) 1000 optimal)
              (toy_config "temoa.sqlite" "cbc" (Some 3%Z)) 10 (toy_self 3)
              (snd (init (toy_config "temoa.sqlite" "cbc" (Some 3%Z)) []))
              (SolverFactory "cbc" None) [] "TotalCost" 1000%float
              (Instance (toy_model 1)) (1, 0)%nat)
    as (ws & w2 & E & Hc & _);
    [vm_compute; reflexivity | reflexivity | reflexivity | reflexivity
    | vm_compute; reflexivity | vm_compute; reflexivity |].
  exists ws, w2, (Instance (toy_model 1)), (1, 0)%nat.
  split; [|exact Hc].
  exact E.
Defined.

End MoreInstances.
